(** * esak: the request / cache / validation pipeline of [esak/session.py]

    A shallow embedding of [Session] and of the Python and library
    operations it relies on, followed by the properties of the pipeline.

    Conventions.
    - A Python [str] is a Rocq [string] holding its UTF-8 bytes, so
      [s.encode("utf-8")] is the list of its bytes and code-point order
      is byte order.
    - A Python [dict] is an association list in insertion order whose keys
      are pairwise distinct.
    - Exceptions are values of [exn]; a computation yields an [outcome]. *)

From Stdlib Require Import ZArith QArith List String Ascii Permutation Sorted Lia.
From stdpp Require Import base gmap strings list sorting pretty.

Set Warnings "-register-all".

Local Open Scope Z_scope.
Local Open Scope string_scope.

(** ** Python strings *)

Module Str.

(** [sep.join(parts)] *)
Fixpoint join (sep : string) (parts : list string) : string :=
  match parts with
  | [] => ""
  | [x] => x
  | x :: rest => x +:+ sep +:+ join sep rest
  end.

(** [template.format(arg)] for a template with one [{}] field. *)
Fixpoint format (template arg : string) : string :=
  match template with
  | "" => ""
  | String "{" (String "}" rest) => arg +:+ rest
  | String c rest => String c (format rest arg)
  end.

(** [needle in hay] on two strings. *)
Fixpoint contains (needle hay : string) : bool :=
  String.prefix needle hay ||
  match hay with
  | "" => false
  | String _ rest => contains needle rest
  end.

(** [s.encode("utf-8")] *)
Definition encode (s : string) : list ascii := String.list_ascii_of_string s.

(** A continuation byte of a multi-byte UTF-8 sequence: [10xxxxxx]. *)
Definition continuation (c : ascii) : bool :=
  let n := N_of_ascii c in ((128 <=? n) && (n <? 192))%N.

Fixpoint take_continuation (s : string) : string :=
  match s with
  | String c rest => if continuation c then String c (take_continuation rest) else ""
  | "" => ""
  end.

(** [s[0]]: the first code point, [None] on the empty string. *)
Definition first_char (s : string) : option string :=
  match s with
  | "" => None
  | String c rest => Some (String c (take_continuation rest))
  end.

End Str.

(** ** Association lists: the content of a [dict] *)

Section Assoc.
Context {V : Type}.

Fixpoint assoc_get (k : string) (d : list (string * V)) : option V :=
  match d with
  | [] => None
  | (k', v) :: rest => if String.eqb k k' then Some v else assoc_get k rest
  end.

(** [d[k] = v]: overwrite in place, or append a new entry at the end. *)
Fixpoint assoc_set (k : string) (v : V) (d : list (string * V)) : list (string * V) :=
  match d with
  | [] => [(k, v)]
  | (k', v') :: rest =>
      if String.eqb k k' then (k, v) :: rest else (k', v') :: assoc_set k v rest
  end.

Definition assoc_mem (k : string) (d : list (string * V)) : bool :=
  match assoc_get k d with Some _ => true | None => false end.

(** [dict(items)] / [OrderedDict(items)]: entries are inserted one by one. *)
Definition assoc_of_items (items : list (string * V)) : list (string * V) :=
  fold_left (fun d kv => assoc_set kv.1 kv.2 d) items [].

(** [sorted(items, key=lambda t: t[0])]: a stable sort on the key. *)
Fixpoint insert_by_key (x : string * V) (l : list (string * V)) : list (string * V) :=
  match l with
  | [] => [x]
  | y :: rest =>
      if String.leb x.1 y.1 then x :: y :: rest else y :: insert_by_key x rest
  end.

Fixpoint sorted_by_key (items : list (string * V)) : list (string * V) :=
  match items with
  | [] => []
  | x :: rest => insert_by_key x (sorted_by_key rest)
  end.

End Assoc.

(** ** Query parameters *)

(** The scalar values a caller puts in [params]. *)
Inductive scalar :=
| SStr (s : string)
| SInt (z : Z)
| SBool (b : bool)
| SNone.

(** [str(v)] *)
Definition str_of_scalar (v : scalar) : string :=
  match v with
  | SStr s => s
  | SInt z => pretty z
  | SBool true => "True"
  | SBool false => "False"
  | SNone => "None"
  end.

Abbreviation dict := (list (string * scalar)).

(** An endpoint segment is a [str] or an [int]. *)
Inductive segment :=
| SegStr (s : string)
| SegInt (z : Z).

Definition str_of_segment (e : segment) : string :=
  match e with
  | SegStr s => s
  | SegInt z => pretty z
  end.

(** ** [urllib.parse] *)

Module Urllib.

(** The characters [quote] never escapes: letters, digits and [_.-~]. *)
Definition always_safe (c : ascii) : bool :=
  let n := N_of_ascii c in
  (((65 <=? n) && (n <=? 90)) || ((97 <=? n) && (n <=? 122)) ||
   ((48 <=? n) && (n <=? 57)) ||
   (n =? 95) || (n =? 46) || (n =? 45) || (n =? 126))%N.

Definition hex_upper (n : N) : ascii :=
  ascii_of_N (if (n <? 10)%N then 48 + n else 55 + n)%N.

(** [quote_plus] on one byte: kept, turned into [+] (a space), or
    written [%XX]. *)
Definition quote_byte (c : ascii) : string :=
  if always_safe c then String c ""
  else if Ascii.eqb c " " then "+"
  else
    let n := N_of_ascii c in
    String "%" (String (hex_upper (n / 16)) (String (hex_upper (n mod 16)) "")).

Fixpoint quote_plus (s : string) : string :=
  match s with
  | "" => ""
  | String c rest => quote_byte c +:+ quote_plus rest
  end.

(** [urlencode(query)] for a mapping: [k=v] pairs joined by [&]. *)
Definition urlencode (query : dict) : string :=
  Str.join "&"
    (map (fun kv => quote_plus kv.1 +:+ "=" +:+ quote_plus (str_of_scalar kv.2)) query).

End Urllib.

(** ** [Session._create_cached_params] *)

Definition _create_cached_params (params : dict) : string :=
  match params with
  | [] => ""
  | _ :: _ =>
      let ordered_params := assoc_of_items (sorted_by_key params) in
      "?" +:+ Urllib.urlencode ordered_params
  end.


(** ** [hashlib.md5]

    The MD5 message digest (RFC 1321) on 32-bit words kept in [Z], and the
    hash object of [hashlib]: [update] feeds bytes, [hexdigest] prints the
    digest of everything fed so far. *)

Module Hashlib.

Local Open Scope Z_scope.

Definition w32 (x : Z) : Z := x mod 2 ^ 32.

Definition rotl (x c : Z) : Z :=
  w32 (Z.lor (Z.shiftl x c) (Z.shiftr x (32 - c))).

Definition lnot32 (x : Z) : Z := Z.lxor x 0xffffffff.

Definition shifts : list Z :=
  [7; 12; 17; 22; 7; 12; 17; 22; 7; 12; 17; 22; 7; 12; 17; 22;
   5; 9; 14; 20; 5; 9; 14; 20; 5; 9; 14; 20; 5; 9; 14; 20;
   4; 11; 16; 23; 4; 11; 16; 23; 4; 11; 16; 23; 4; 11; 16; 23;
   6; 10; 15; 21; 6; 10; 15; 21; 6; 10; 15; 21; 6; 10; 15; 21].

Definition sines : list Z :=
  [0xd76aa478; 0xe8c7b756; 0x242070db; 0xc1bdceee;
   0xf57c0faf; 0x4787c62a; 0xa8304613; 0xfd469501;
   0x698098d8; 0x8b44f7af; 0xffff5bb1; 0x895cd7be;
   0x6b901122; 0xfd987193; 0xa679438e; 0x49b40821;
   0xf61e2562; 0xc040b340; 0x265e5a51; 0xe9b6c7aa;
   0xd62f105d; 0x02441453; 0xd8a1e681; 0xe7d3fbc8;
   0x21e1cde6; 0xc33707d6; 0xf4d50d87; 0x455a14ed;
   0xa9e3e905; 0xfcefa3f8; 0x676f02d9; 0x8d2a4c8a;
   0xfffa3942; 0x8771f681; 0x6d9d6122; 0xfde5380c;
   0xa4beea44; 0x4bdecfa9; 0xf6bb4b60; 0xbebfbc70;
   0x289b7ec6; 0xeaa127fa; 0xd4ef3085; 0x04881d05;
   0xd9d4d039; 0xe6db99e5; 0x1fa27cf8; 0xc4ac5665;
   0xf4292244; 0x432aff97; 0xab9423a7; 0xfc93a039;
   0x655b59c3; 0x8f0ccc92; 0xffeff47d; 0x85845dd1;
   0x6fa87e4f; 0xfe2ce6e0; 0xa3014314; 0x4e0811a1;
   0xf7537e82; 0xbd3af235; 0x2ad7d2bb; 0xeb86d391].

(** The four chaining words. *)
Record chain := Chain { cA : Z; cB : Z; cC : Z; cD : Z }.

Definition initial : chain :=
  Chain 0x67452301 0xefcdab89 0x98badcfe 0x10325476.

(** Operation [i] (0..63) on the sixteen words [M] of a block. *)
Definition operation (M : list Z) (st : chain) (i : nat) : chain :=
  let '(Chain A B C D) := st in
  let iz := Z.of_nat i in
  let '(F, g) :=
    if iz <? 16 then (Z.lor (Z.land B C) (Z.land (lnot32 B) D), iz)
    else if iz <? 32 then (Z.lor (Z.land D B) (Z.land (lnot32 D) C), (5 * iz + 1) mod 16)
    else if iz <? 48 then (Z.lxor (Z.lxor B C) D, (3 * iz + 5) mod 16)
    else (Z.lxor C (Z.lor B (lnot32 D)), (7 * iz) mod 16) in
  let F' := w32 (F + A + nth i sines 0 + nth (Z.to_nat g) M 0) in
  Chain D (w32 (B + rotl F' (nth i shifts 0))) B C.

Definition compress (st : chain) (M : list Z) : chain :=
  let '(Chain A B C D) := fold_left (operation M) (seq 0 64) st in
  Chain (w32 (cA st + A)) (w32 (cB st + B)) (w32 (cC st + C)) (w32 (cD st + D)).

(** Little-endian 32-bit words of a byte sequence. *)
Fixpoint words (bytes : list Z) : list Z :=
  match bytes with
  | b0 :: b1 :: b2 :: b3 :: rest =>
      (b0 + 2 ^ 8 * b1 + 2 ^ 16 * b2 + 2 ^ 24 * b3) :: words rest
  | _ => []
  end.

Definition le_bytes (n : nat) (x : Z) : list Z :=
  map (fun i => (x / 2 ^ (8 * Z.of_nat i)) mod 256) (seq 0 n).

(** Padding: a [1] bit, zeros up to 56 mod 64, the bit length on 64 bits. *)
Definition pad (msg : list Z) : list Z :=
  let len := Z.of_nat (length msg) in
  msg ++ [0x80] ++ repeat 0 (Z.to_nat ((55 - len) mod 64))
      ++ le_bytes 8 ((8 * len) mod 2 ^ 64).

Fixpoint blocks (fuel : nat) (ws : list Z) (st : chain) : chain :=
  match fuel, ws with
  | S fuel', _ :: _ => blocks fuel' (skipn 16 ws) (compress st (firstn 16 ws))
  | _, _ => st
  end.

(** The sixteen bytes of the digest. *)
Definition digest (msg : list ascii) : list Z :=
  let ws := words (pad (map (fun c => Z.of_N (N_of_ascii c)) msg)) in
  let '(Chain A B C D) := blocks (length ws) ws initial in
  le_bytes 4 A ++ le_bytes 4 B ++ le_bytes 4 C ++ le_bytes 4 D.

Definition hex_lower (n : Z) : ascii :=
  ascii_of_N (Z.to_N (if n <? 10 then 48 + n else 87 + n)).

Fixpoint hex (bytes : list Z) : string :=
  match bytes with
  | [] => ""
  | b :: rest => String (hex_lower (b / 16)) (String (hex_lower (b mod 16)) (hex rest))
  end.

(** The hash object: the bytes fed so far. *)
Record md5_obj := Md5 { fed : list ascii }.

Definition md5 : md5_obj := Md5 [].

Definition update (h : md5_obj) (data : list ascii) : md5_obj :=
  Md5 (fed h ++ data).

Definition hexdigest (h : md5_obj) : string := hex (digest (fed h)).

End Hashlib.

(** ** Decoded JSON and exceptions *)

Inductive pyfloat :=
| FFin (q : Q)
| FInf (negative : bool)
| FNaN.

(** What [response.json()] and the cache hand back. [JNull] is [None]. *)
Inductive json :=
| JNull
| JBool (b : bool)
| JInt (z : Z)
| JFloat (f : pyfloat)
| JStr (s : string)
| JArr (items : list json)
| JObj (fields : list (string * json)).

(** The argument an [ApiError] is built from: a value of the response
    body, or the report of a [ValidationError]. *)
Inductive api_arg :=
| Body (v : json)
| Invalid (report : string).

Inductive exn :=
| ApiError (arg : api_arg)
| CacheError (cause : exn)
| AttributeError (name : string)
| KeyError (key : json)
| IndexError
| TypeError
| JSONDecodeError
| RequestException (what : string)
| ValidationError (report : string).

Inductive outcome (A : Type) :=
| Return (a : A)
| Raise (e : exn).
Arguments Return {A} a.
Arguments Raise {A} e.

(** Python operators on decoded JSON. *)
Module Py.

Definition is_None (v : json) : bool :=
  match v with JNull => true | _ => false end.

(** [key in data] for a [str] key. *)
Definition contains (key : string) (data : json) : outcome bool :=
  match data with
  | JObj fields => Return (assoc_mem key fields)
  | JArr items =>
      Return (existsb (fun x => match x with JStr s => String.eqb s key | _ => false end) items)
  | JStr s => Return (Str.contains key s)
  | _ => Raise TypeError
  end.

(** [data[key]] for a [str] key. *)
Definition getitem (data : json) (key : string) : outcome json :=
  match data with
  | JObj fields =>
      match assoc_get key fields with
      | Some v => Return v
      | None => Raise (KeyError (JStr key))
      end
  | _ => Raise TypeError
  end.

(** [data[0]] *)
Definition getitem0 (data : json) : outcome json :=
  match data with
  | JArr (x :: _) => Return x
  | JArr [] => Raise IndexError
  | JStr s =>
      match Str.first_char s with
      | Some c => Return (JStr c)
      | None => Raise IndexError
      end
  | JObj _ => Raise (KeyError (JInt 0))
  | _ => Raise TypeError
  end.

(** [data.get(key, default)] *)
Definition get (data : json) (key : string) (default : json) : outcome json :=
  match data with
  | JObj fields =>
      Return (match assoc_get key fields with Some v => v | None => default end)
  | _ => Raise (AttributeError "get")
  end.

(** [v == n] for an [int] literal [n] *)
Definition eq_int (v : json) (n : Z) : bool :=
  match v with
  | JInt z => (z =? n)%Z
  | JFloat (FFin q) => Qeq_bool q (inject_Z n)
  | JBool b => ((if b then 1 else 0) =? n)%Z
  | _ => false
  end.

(** [v != n] *)
Definition ne_int (v : json) (n : Z) : bool := negb (eq_int v n).

End Py.

(** ** The world a call runs in *)

(** What [requests.get] gives: a response with its status code and its
    body ([None] when the body is not JSON, so that [response.json()]
    raises), or an exception of the transport. *)
Inductive http_reply :=
| Response (status_code : Z) (body : option json)
| Failure (what : string).

Abbreviation header_map := (list (string * string)).

(** The surroundings a call cannot change: what [datetime.now()] formats
    to at its n-th reading, and what the remote API answers. *)
Record Env := {
  clock : nat -> string;
  http : string -> dict -> header_map -> http_reply
}.

Inductive interaction :=
| CacheGet (key : string)
| CacheStore (key : string) (data : json)
| HttpGet (url : string) (params : dict) (headers : header_map).

(** The mutable state: the [dict] object bound to [params], the entries
    the cache collaborator holds, the number of clock readings so far and
    the interactions with the collaborators, oldest first. *)
Record Store := {
  params_obj : dict;
  cache_entries : gmap string json;
  clock_reads : nat;
  trace : list interaction
}.

Definition M (A : Type) : Type := Env -> Store -> outcome A * Store.

#[export] Instance M_ret : MRet M := fun A a _ st => (Return a, st).

#[export] Instance M_bind : MBind M := fun A B f m env st =>
  match m env st with
  | (Return a, st') => f a env st'
  | (Raise e, st') => (Raise e, st')
  end.

Definition raise {A} (e : exn) : M A := fun _ st => (Raise e, st).

Definition lift {A} (o : outcome A) : M A := fun _ st => (o, st).

(** [try: body except <class>: handler], the class given by [select]. *)
Definition try_except {A} (body : M A) (select : exn -> option (M A)) : M A :=
  fun env st =>
    match body env st with
    | (Raise e, st') =>
        match select e with
        | Some handler => handler env st'
        | None => (Raise e, st')
        end
    | r => r
    end.

(** The store once an interaction has been recorded. *)
Definition log (ev : interaction) (st : Store) : Store :=
  {| params_obj := params_obj st; cache_entries := cache_entries st;
     clock_reads := clock_reads st; trace := trace st ++ [ev] |}.

Definition emit (ev : interaction) : M unit := fun _ st => (Return tt, log ev st).

Definition read_params : M dict := fun _ st => (Return (params_obj st), st).

Definition bind_params (d : dict) : M unit := fun _ st =>
  (Return tt, {| params_obj := d; cache_entries := cache_entries st;
                 clock_reads := clock_reads st; trace := trace st |}).

(** [params[key] = value] *)
Definition setitem_params (key : string) (value : scalar) : M unit := fun _ st =>
  (Return tt, {| params_obj := assoc_set key value (params_obj st);
                 cache_entries := cache_entries st;
                 clock_reads := clock_reads st; trace := trace st |}).

(** [datetime.now().strftime("%Y-%m-%d%H:%M:%S")] *)
Definition datetime_now_strftime : M string := fun env st =>
  (Return (clock env (clock_reads st)),
   {| params_obj := params_obj st; cache_entries := cache_entries st;
      clock_reads := S (clock_reads st); trace := trace st |}).

(** [requests.get(url, params=params, headers=headers)] *)
Definition requests_get (url : string) (headers : header_map) : M (Z * option json) :=
  fun env st =>
    let params := params_obj st in
    let st' := log (HttpGet url params headers) st in
    match http env url params headers with
    | Response status_code body => (Return (status_code, body), st')
    | Failure what => (Raise (RequestException what), st')
    end.

(** [response.json()] *)
Definition response_json (response : Z * option json) : M json :=
  match response.2 with
  | Some data => mret data
  | None => raise JSONDecodeError
  end.

(** ** The cache collaborator *)

(** The object given as [cache]: its truth value ([bool(cache)]) and the
    operations it has. *)
Record Cache := {
  truthy : bool;
  has_get : bool;
  has_store : bool
}.

(** Modelled from the spec: [esak/sqlite_cache.py] is not among the
    sources; a collaborator is a key-value store, [get(key)] gives the
    value held under the key or [None], and [store(key, value)] records
    the value under the key. *)
Definition read_entry (key : string) : M json := fun _ st =>
  (Return (default JNull (cache_entries st !! key)), st).

Definition write_entry (key : string) (data : json) : M unit := fun _ st =>
  (Return tt, {| params_obj := params_obj st;
                 cache_entries := <[key := data]> (cache_entries st);
                 clock_reads := clock_reads st; trace := trace st |}).

(** [cache.get(key)] and [cache.store(key, data)]: calling an operation the
    object does not have raises [AttributeError]. *)
Definition cache_get (c : Cache) (key : string) : M json :=
  if has_get c then emit (CacheGet key);; read_entry key
  else raise (AttributeError "get").

Definition cache_store (c : Cache) (key : string) (data : json) : M unit :=
  if has_store c then emit (CacheStore key data);; write_entry key data
  else raise (AttributeError "store").

(** ** [Session] *)

Record Session := {
  headers : header_map;
  public_key : string;
  private_key : string;
  cache : option Cache;
  api_url : string
}.

(** [Session.__init__]. [version] is [esak.__version__]; [system] and
    [release] are what [platform.system()] and [platform.release()] give. *)
Definition __init__ (version system release : string)
    (public_key private_key : string) (cache : option Cache) : Session :=
  {| headers :=
       [("User-Agent", "esak/" +:+ version +:+ " (" +:+ system +:+ "; " +:+ release +:+ ")")];
     public_key := public_key;
     private_key := private_key;
     cache := cache;
     api_url := "http://gateway.marvel.com:80/v1/public/{}" |}.

Definition _create_auth_hash (s : Session) (now_string : string) : string :=
  let auth_hash := Hashlib.md5 in
  let auth_hash := Hashlib.update auth_hash (Str.encode now_string) in
  let auth_hash := Hashlib.update auth_hash (Str.encode (private_key s)) in
  let auth_hash := Hashlib.update auth_hash (Str.encode (public_key s)) in
  Hashlib.hexdigest auth_hash.

Definition _update_params (s : Session) : M unit :=
  now_string ← datetime_now_strftime;
  setitem_params "hash" (SStr (_create_auth_hash s now_string));;
  setitem_params "apikey" (SStr (public_key s));;
  setitem_params "ts" (SStr now_string).

(** [except AttributeError as e: raise CacheError(...) from e] *)
Definition attribute_fault_as_CacheError {A} (e : exn) : option (M A) :=
  match e with
  | AttributeError _ => Some (raise (CacheError e))
  | _ => None
  end.

Definition _get_results_from_cache (s : Session) (key : string) : M json :=
  match cache s with
  | Some c =>
      if truthy c then
        try_except (cache_get c key) attribute_fault_as_CacheError
      else mret JNull
  | None => mret JNull
  end.

Definition _save_results_to_cache (s : Session) (key : string) (data : json) : M unit :=
  match cache s with
  | Some c =>
      if truthy c then
        try_except (cache_store c key data) attribute_fault_as_CacheError
      else mret tt
  | None => mret tt
  end.

Definition _call (s : Session) (endpoint : list segment) (params : option dict) : M json :=
  bind_params (default [] params);;
  let url := Str.format (api_url s) (Str.join "/" (map str_of_segment endpoint)) in
  caller_params ← read_params;
  let cache_params := _create_cached_params caller_params in
  let cache_key := url +:+ cache_params in
  cached_response ← _get_results_from_cache s cache_key;
  if negb (Py.is_None cached_response) then
    lift (Py.getitem cached_response "results")
  else
    _update_params s;;
    response ← requests_get url (headers s);
    data ← response_json response;
    has_message ← lift (Py.contains "message" data);
    if has_message : bool then
      message ← lift (Py.getitem data "message");
      raise (ApiError (Body message))
    else
      code ← lift (Py.get data "code" (JInt 200));
      if Py.ne_int code 200 then
        status ← lift (Py.get data "status" JNull);
        raise (ApiError (Body status))
      else
        has_data ← lift (Py.contains "data" data);
        data ← (if has_data : bool then lift (Py.getitem data "data") else mret data);
        (if (response.1 =? 200)%Z then _save_results_to_cache s cache_key data
         else mret tt);;
        lift (Py.getitem data "results").

(** ** The resource methods *)

Inductive resource := Comic | Series | Creator | Character | Story | Event.

Definition resource_path (r : resource) : string :=
  match r with
  | Comic => "comics"
  | Series => "series"
  | Creator => "creators"
  | Character => "characters"
  | Story => "stories"
  | Event => "events"
  end.

Section ResourceClient.

(** The schemas ([esak/schemas]) are not among the sources: a decoded
    record is a value of [DomainRecord], and [validate_python r] stands
    for [TypeAdapter(r).validate_python], which gives the record or
    raises [ValidationError] with a report. *)
Variable DomainRecord : Type.
Variable validate_python : resource -> json -> DomainRecord + string.

(** [except ValidationError as err: raise ApiError(err) from err] *)
Definition validation_fault_as_ApiError {A} (e : exn) : option (M A) :=
  match e with
  | ValidationError report => Some (raise (ApiError (Invalid report)))
  | _ => None
  end.

Definition adapter_validate (r : resource) (result : json) : M DomainRecord :=
  match validate_python r result with
  | inl record => mret record
  | inr report => raise (ValidationError report)
  end.

(** The body shared by [comic], [series], [creator], [character],
    [story] and [event]. *)
Definition fetch_one (r : resource) (s : Session) (_id : Z) : M DomainRecord :=
  try_except
    (results ← _call s [SegStr (resource_path r); SegInt _id] None;
     result ← lift (Py.getitem0 results);
     adapter_validate r result)
    validation_fault_as_ApiError.

Definition comic := fetch_one Comic.
Definition series := fetch_one Series.
Definition creator := fetch_one Creator.
Definition character := fetch_one Character.
Definition story := fetch_one Story.
Definition event := fetch_one Event.

End ResourceClient.

(** ** Vocabulary of the properties *)

(** The URL [_call] requests for an endpoint. *)
Definition request_url (s : Session) (endpoint : list segment) : string :=
  Str.format (api_url s) (Str.join "/" (map str_of_segment endpoint)).

(** The key under which [_call] consults and fills the cache. *)
Definition cache_key (s : Session) (endpoint : list segment) (params : dict) : string :=
  request_url s endpoint +:+ _create_cached_params params.

(** Entries in ascending order of their parameter names. *)
Definition key_le {V} (x y : string * V) : Prop := String.le x.1 y.1.

(** The cache key an interaction carries, if it is one with the cache. *)
Definition key_of (ev : interaction) : option string :=
  match ev with
  | CacheGet key => Some key
  | CacheStore key _ => Some key
  | HttpGet _ _ _ => None
  end.

Definition is_HttpGet (ev : interaction) : bool :=
  match ev with HttpGet _ _ _ => true | _ => false end.

Definition is_CacheStore (ev : interaction) : bool :=
  match ev with CacheStore _ _ => true | _ => false end.

(** What a run added to the trace. *)
Definition new_events {A} (st : Store) (r : outcome A * Store) : list interaction :=
  drop (length (trace st)) (trace r.2).

(** The parameters once [_update_params] has run at time [now_string]. *)
Definition signed (s : Session) (now_string : string) (params : dict) : dict :=
  assoc_set "ts" (SStr now_string)
    (assoc_set "apikey" (SStr (public_key s))
       (assoc_set "hash" (SStr (_create_auth_hash s now_string)) params)).

(** A body that is neither of the two error envelopes: no [message], and
    no [code] other than 200. *)
Definition passes_classification (fields : list (string * json)) : bool :=
  negb (assoc_mem "message" fields)
  && negb (Py.ne_int (default (JInt 200) (assoc_get "code" fields)) 200).

(** The payload of such a body: what is under [data] when there is one. *)
Definition unwrapped (fields : list (string * json)) : json :=
  default (JObj fields) (assoc_get "data" fields).

Definition has_results (data : json) : bool :=
  match Py.getitem data "results" with
  | Return _ => true
  | Raise _ => false
  end.

(** The statements of [_call] that follow [data = response.json()], for a
    response received with [status_code]: classification, unwrapping, the
    cache write and the lookup of [results]. *)
Definition handle_response (s : Session) (cache_key : string)
    (status_code : Z) (data : json) : M json :=
  has_message ← lift (Py.contains "message" data);
  if has_message : bool then
    message ← lift (Py.getitem data "message");
    raise (ApiError (Body message))
  else
    code ← lift (Py.get data "code" (JInt 200));
    if Py.ne_int code 200 then
      status ← lift (Py.get data "status" JNull);
      raise (ApiError (Body status))
    else
      has_data ← lift (Py.contains "data" data);
      data ← (if has_data : bool then lift (Py.getitem data "data") else mret data);
      (if (status_code =? 200)%Z then _save_results_to_cache s cache_key data
       else mret tt);;
      lift (Py.getitem data "results").

(** The store when [_call] is about to read the response: the parameters
    signed, the clock read once, the request recorded. *)
Definition at_request (s : Session) (url : string) (env : Env) (st : Store) : Store :=
  let sp := signed s (clock env (clock_reads st)) (params_obj st) in
  {| params_obj := sp; cache_entries := cache_entries st;
     clock_reads := S (clock_reads st);
     trace := trace st ++ [HttpGet url sp (headers s)] |}.

(** The cache write of [_call] raises: the collaborator is in use and has
    no [store]. *)
Definition store_fails (s : Session) : bool :=
  match cache s with
  | Some c => truthy c && negb (has_store c)
  | None => false
  end.

(** The collaborator is not consulted: there is none, or it is false in a
    condition. *)
Definition cache_unused (s : Session) : bool :=
  match cache s with
  | Some c => negb (truthy c)
  | None => true
  end.

(** ** Concrete runs *)

Module Scenario.

(** A collaborator with both operations; objects that lack one of them;
    an empty list, which has neither and is false in a condition; and an
    empty dict, which has [get] only and is false in a condition too. *)
Definition sqlite_cache : Cache :=
  {| truthy := true; has_get := true; has_store := true |}.
Definition read_only_cache : Cache :=
  {| truthy := true; has_get := true; has_store := false |}.
Definition write_only_cache : Cache :=
  {| truthy := true; has_get := false; has_store := true |}.
Definition empty_list : Cache :=
  {| truthy := false; has_get := false; has_store := false |}.
Definition empty_dict : Cache :=
  {| truthy := false; has_get := true; has_store := false |}.

Definition session (cache : option Cache) : Session :=
  __init__ "2.3.1" "Linux" "6.8.0" "1234" "abcd" cache.

Definition now : string := "2024-02-0309:15:27".

(** A world whose clock shows [now] and whose API always answers [reply]. *)
Definition world (reply : http_reply) : Env :=
  {| clock := fun _ => now; http := fun _ _ _ => reply |}.

Definition fresh : Store :=
  {| params_obj := []; cache_entries := ∅; clock_reads := 0; trace := [] |}.

Definition comic_1 : json := JObj [("id", JInt 1); ("title", JStr "Avengers #1")].

Definition comics_1 : list segment := [SegStr "comics"; SegInt 1].
Definition comics_1_url : string := "http://gateway.marvel.com:80/v1/public/comics/1".
Definition cached_comics_1 : json := JObj [("results", JArr [comic_1])].

(** What goes over the wire for a call without parameters. *)
Definition signed_params : dict := signed (session None) now [].
Definition user_agent : header_map := headers (session None).

(** A listing request and the key it is cached under. *)
Definition page : dict := [("orderBy", SStr "title"); ("limit", SInt 5)].
Definition comics_page_key : string :=
  "http://gateway.marvel.com:80/v1/public/comics?limit=5&orderBy=title".

(** A store whose cache already holds the answer for [comics/1]. *)
Definition warm : Store :=
  {| params_obj := [];
     cache_entries := {[ comics_1_url := cached_comics_1; comics_page_key := cached_comics_1 ]};
     clock_reads := 0; trace := [] |}.

(** The usual envelope. *)
Definition ok_body : json :=
  JObj [("code", JInt 200); ("status", JStr "Ok");
        ("data", JObj [("count", JInt 1); ("results", JArr [comic_1])])].

(** An error envelope that comes with status 200. *)
Definition bad_key_body : json := JObj [("message", JStr "bad key")].

(** The envelope of an unknown resource. *)
Definition not_found_body : json :=
  JObj [("code", JInt 404); ("status", JStr "We couldn't find that comic")].

(** An envelope without [results], and one with no element in it. *)
Definition no_results_body : json :=
  JObj [("code", JInt 200); ("status", JStr "Ok"); ("data", JObj [("count", JInt 0)])].
Definition empty_results_body : json :=
  JObj [("code", JInt 200); ("status", JStr "Ok");
        ("data", JObj [("count", JInt 0); ("results", JArr [])])].

(** A validator that accepts objects with an [id] and rejects the rest. *)
Definition needs_id (r : resource) (v : json) : json + string :=
  match Py.getitem v "id" with
  | Return _ => inl v
  | Raise _ => inr "id: field required"
  end.

End Scenario.

(** ** The list methods *)

Section ListMethods.

(** [validate_python_list r] stands for
    [TypeAdapter(list[r]).validate_python], which gives the records or
    raises [ValidationError] with a report; like the schemas it is not
    among the sources. *)
Variable DomainRecord : Type.
Variable validate_python_list : resource -> json -> list DomainRecord + string.

Definition adapter_validate_list (r : resource) (results : json) : M (list DomainRecord) :=
  match validate_python_list r results with
  | inl records => mret records
  | inr report => raise (ValidationError report)
  end.

(** The body shared by the methods that list the [rel] of one [r], such
    as [comic_characters]. *)
Definition fetch_related (r rel : resource) (s : Session) (_id : Z)
    (params : option dict) : M (list DomainRecord) :=
  let params := default [] params in
  try_except
    (results ← _call s [SegStr (resource_path r); SegInt _id; SegStr (resource_path rel)]
                 (Some params);
     adapter_validate_list rel results)
    validation_fault_as_ApiError.

(** The body shared by the methods that list a resource, such as
    [comics_list]. *)
Definition fetch_all (r : resource) (s : Session)
    (params : option dict) : M (list DomainRecord) :=
  let params := default [] params in
  try_except
    (results ← _call s [SegStr (resource_path r)] (Some params);
     adapter_validate_list r results)
    validation_fault_as_ApiError.

Definition comic_characters := fetch_related Comic Character.
Definition comic_creators := fetch_related Comic Creator.
Definition comic_events := fetch_related Comic Event.
Definition comic_stories := fetch_related Comic Story.
Definition comics_list := fetch_all Comic.

Definition series_characters := fetch_related Series Character.
Definition series_comics := fetch_related Series Comic.
Definition series_creators := fetch_related Series Creator.
Definition series_events := fetch_related Series Event.
Definition series_stories := fetch_related Series Story.
Definition series_list := fetch_all Series.

Definition creator_comics := fetch_related Creator Comic.
Definition creator_events := fetch_related Creator Event.
Definition creator_series := fetch_related Creator Series.
Definition creator_stories := fetch_related Creator Story.
Definition creators_list := fetch_all Creator.

Definition character_comics := fetch_related Character Comic.
Definition character_events := fetch_related Character Event.
Definition character_series := fetch_related Character Series.
Definition character_stories := fetch_related Character Story.
Definition characters_list := fetch_all Character.

Definition story_characters := fetch_related Story Character.
Definition story_comics := fetch_related Story Comic.
Definition story_creators := fetch_related Story Creator.
Definition story_events := fetch_related Story Event.
Definition story_series := fetch_related Story Series.
Definition stories_list := fetch_all Story.

Definition event_characters := fetch_related Event Character.
Definition event_comics := fetch_related Event Comic.
Definition event_creators := fetch_related Event Creator.
Definition event_series := fetch_related Event Series.
Definition event_stories := fetch_related Event Story.
Definition events_list := fetch_all Event.

End ListMethods.

(** A list validator that accepts arrays of objects with an [id] and
    rejects the rest. *)
Definition needs_id_each (r : resource) (v : json) : list json + string :=
  match v with
  | JArr items =>
      if forallb (fun x => match Scenario.needs_id r x with inl _ => true | inr _ => false end)
           items
      then inl items
      else inr "id: field required"
  | _ => inr "Input should be a valid list"
  end.

(** ** More vocabulary *)

(** The three names [_update_params] writes. *)
Definition is_auth_key (k : string) : bool :=
  String.eqb k "hash" || String.eqb k "apikey" || String.eqb k "ts".

(** A mapping as [urlencode] reads it: names, and values through [str]. *)
Definition query_of (params : dict) : list (string * string) :=
  map (fun kv => (kv.1, str_of_scalar kv.2)) params.

(** What [_call] raises on a body that is not a JSON object: the
    [TypeError] of [data["message"]] when [in] found the name, of [in]
    itself on a value that is no container, and the [AttributeError] of
    [data.get] otherwise. *)
Definition non_object_fault (data : json) : exn :=
  match Py.contains "message" data with
  | Return true => TypeError
  | Return false => AttributeError "get"
  | Raise e => e
  end.

(** A decoder for query strings. It is not part of the program: it reads
    back what [Urllib.urlencode] writes, and serves to show that the key
    of a request loses nothing of its parameters. *)
Module UrlDecode.

Definition hex_value (c : ascii) : option N :=
  let n := N_of_ascii c in
  if ((48 <=? n) && (n <=? 57))%N then Some (n - 48)%N
  else if ((65 <=? n) && (n <=? 70))%N then Some (n - 55)%N
  else None.

Fixpoint unquote_plus (s : string) : string :=
  match s with
  | "" => ""
  | String "+" rest => String " " (unquote_plus rest)
  | String "%" (String h (String l rest) as tail) =>
      match hex_value h, hex_value l with
      | Some a, Some b => String (ascii_of_N (16 * a + b)) (unquote_plus rest)
      | _, _ => String "%" (unquote_plus tail)
      end
  | String c rest => String c (unquote_plus rest)
  end.

(** [s.split(sep)] *)
Fixpoint split_on (sep : ascii) (s : string) : list string :=
  match s with
  | "" => [""]
  | String c rest =>
      if Ascii.eqb c sep then "" :: split_on sep rest
      else match split_on sep rest with
           | piece :: pieces => String c piece :: pieces
           | [] => [String c ""]
           end
  end.

(** [sep in s] for a character. *)
Fixpoint occurs (sep : ascii) (s : string) : bool :=
  match s with
  | "" => false
  | String c rest => Ascii.eqb c sep || occurs sep rest
  end.

Definition parse_pair (piece : string) : string * string :=
  match split_on "=" piece with
  | [name] => (unquote_plus name, "")
  | name :: value :: _ => (unquote_plus name, unquote_plus value)
  | [] => ("", "")
  end.

(** One [name=value] of a query string. *)
Definition encode_pair (kv : string * string) : string :=
  Urllib.quote_plus kv.1 +:+ "=" +:+ Urllib.quote_plus kv.2.

Definition parse_qsl (s : string) : list (string * string) :=
  match s with
  | "" => []
  | _ => map parse_pair (split_on "&" s)
  end.

End UrlDecode.

(** The exceptions that leave [_call]. *)
Definition call_fault (e : exn) : bool :=
  match e with
  | ApiError (Body _) => true
  | CacheError (AttributeError name) => String.eqb name "get" || String.eqb name "store"
  | KeyError (JStr key) => String.eqb key "results"
  | AttributeError name => String.eqb name "get"
  | TypeError | JSONDecodeError | RequestException _ => true
  | _ => false
  end.

(** ** Validators that raise

    The resource methods catch [ValidationError] alone, so whatever else
    [validate_python] raises leaves the method as it is. Here the
    validator gives an outcome, a record or any exception; the validators
    of the sections above are the case where it raises nothing but
    [ValidationError], as [of_report] has it. *)

Definition of_report {A} (v : A + string) : outcome A :=
  match v with
  | inl a => Return a
  | inr report => Raise (ValidationError report)
  end.

Module Raising.

Section Methods.

Variable DomainRecord : Type.
Variable validate_python : resource -> json -> outcome DomainRecord.
Variable validate_python_list : resource -> json -> outcome (list DomainRecord).

(** The body shared by [comic], [series], [creator], [character],
    [story] and [event]. *)
Definition fetch_one (r : resource) (s : Session) (_id : Z) : M DomainRecord :=
  try_except
    (results ← _call s [SegStr (resource_path r); SegInt _id] None;
     result ← lift (Py.getitem0 results);
     lift (validate_python r result))
    validation_fault_as_ApiError.

(** The body shared by the methods that list the [rel] of one [r]. *)
Definition fetch_related (r rel : resource) (s : Session) (_id : Z)
    (params : option dict) : M (list DomainRecord) :=
  let params := default [] params in
  try_except
    (results ← _call s [SegStr (resource_path r); SegInt _id; SegStr (resource_path rel)]
                 (Some params);
     lift (validate_python_list rel results))
    validation_fault_as_ApiError.

(** The body shared by the methods that list a resource. *)
Definition fetch_all (r : resource) (s : Session)
    (params : option dict) : M (list DomainRecord) :=
  let params := default [] params in
  try_except
    (results ← _call s [SegStr (resource_path r)] (Some params);
     lift (validate_python_list r results))
    validation_fault_as_ApiError.

End Methods.

End Raising.

(** A validator that reads [items] of the record before anything else,
    and one for lists. *)
Definition reads_items (r : resource) (v : json) : outcome json :=
  match Py.getitem v "items" with
  | Return _ => of_report (Scenario.needs_id r v)
  | Raise e => Raise e
  end.
Definition each_needs_id (r : resource) (v : json) : outcome (list json) :=
  of_report (needs_id_each r v).

(** * Properties *)

(** ** Association lists and the sort on keys *)

Section AssocFacts.
Context {V : Type}.
Implicit Types (d l : list (string * V)) (x : string * V).

Lemma assoc_get_set_eq k v d : assoc_get k (assoc_set k v d) = Some v.
Proof.
  induction d as [|[k' v'] d IH]; simpl.
  - by rewrite String.eqb_refl.
  - destruct (String.eqb k k') eqn:E; simpl; by rewrite ?String.eqb_refl, ?E.
Qed.

Lemma assoc_get_set_ne k k' v d :
  k ≠ k' → assoc_get k (assoc_set k' v d) = assoc_get k d.
Proof.
  intros Hne. induction d as [|[k'' v''] d IH]; simpl.
  - by destruct (String.eqb_spec k k').
  - destruct (String.eqb_spec k' k'') as [<-|]; simpl.
    + by destruct (String.eqb_spec k k').
    + by rewrite IH.
Qed.

Lemma assoc_set_fresh k v d : k ∉ d.*1 → assoc_set k v d = (d ++ [(k, v)])%list.
Proof.
  induction d as [|[k' v'] d IH]; simpl; intros Hk; [done|].
  apply not_elem_of_cons in Hk as [Hne Hk].
  destruct (String.eqb_spec k k'); [done|]. by rewrite IH.
Qed.

Lemma fold_assoc_set_NoDup l : ∀ acc,
  NoDup ((acc ++ l)%list).*1 →
  fold_left (fun d kv => assoc_set kv.1 kv.2 d) l acc = (acc ++ l)%list.
Proof.
  induction l as [|[k v] l IH]; intros acc Hnd; simpl.
  - by rewrite app_nil_r.
  - rewrite assoc_set_fresh.
    + rewrite IH; rewrite <- app_assoc; done.
    + rewrite fmap_app in Hnd. apply NoDup_app in Hnd as (_ & Hdisj & _).
      intros Hin. apply (Hdisj k Hin). simpl. left.
Qed.

(** Building a dict from items with distinct keys keeps them as they are. *)
Lemma assoc_of_items_NoDup l : NoDup l.*1 → assoc_of_items l = l.
Proof. intros Hnd. unfold assoc_of_items. by rewrite fold_assoc_set_NoDup. Qed.

Lemma insert_by_key_perm x l : insert_by_key x l ≡ₚ x :: l.
Proof.
  induction l as [|y l IH]; simpl; [done|].
  destruct (String.leb x.1 y.1); [done|].
  rewrite IH. apply Permutation_swap.
Qed.

Lemma sorted_by_key_perm l : sorted_by_key l ≡ₚ l.
Proof.
  induction l as [|x l IH]; simpl; [done|].
  by rewrite insert_by_key_perm, IH.
Qed.

Lemma insert_by_key_sorted x l :
  StronglySorted key_le l → StronglySorted key_le (insert_by_key x l).
Proof.
  induction 1 as [|y l Hl IH Hy]; simpl.
  - repeat constructor.
  - destruct (String.leb x.1 y.1) eqn:Hxy.
    + constructor; [by constructor|].
      assert (key_le x y) as Hle by (unfold key_le, String.le; by rewrite Hxy).
      constructor; [done|].
      eapply Forall_impl; [exact Hy|].
      intros z Hz. unfold key_le in *. by etrans.
    + constructor; [done|].
      rewrite insert_by_key_perm. constructor; [|done].
      unfold key_le. destruct (total String.le y.1 x.1) as [|Hle]; [done|].
      unfold String.le in Hle. by rewrite Hxy in Hle.
Qed.

Lemma sorted_by_key_sorted l : StronglySorted key_le (sorted_by_key l).
Proof.
  induction l as [|x l IH]; simpl; [constructor|].
  by apply insert_by_key_sorted.
Qed.

Lemma NoDup_keys_inj l x y :
  NoDup l.*1 → x ∈ l → y ∈ l → x.1 = y.1 → x = y.
Proof.
  induction l as [|z l IH]; simpl; intros Hnd Hx Hy Hk; [by inv Hx|].
  apply NoDup_cons in Hnd as [Hz Hnd].
  inv Hx; inv Hy; try done.
  - exfalso. apply Hz. rewrite Hk. by apply list_elem_of_fmap_2.
  - exfalso. apply Hz. rewrite <- Hk. by apply list_elem_of_fmap_2.
  - by apply IH.
Qed.

(** The sort forgets the insertion order of a dict. *)
Lemma sorted_by_key_unique l1 l2 :
  NoDup l1.*1 → l1 ≡ₚ l2 → sorted_by_key l1 = sorted_by_key l2.
Proof.
  intros Hnd Hp.
  apply (StronglySorted_unique_strong key_le);
    [|apply sorted_by_key_sorted..|by rewrite !sorted_by_key_perm].
  intros x1 x2 H1 H2 Hle1 Hle2.
  rewrite sorted_by_key_perm in H1. rewrite sorted_by_key_perm, <- Hp in H2.
  apply (NoDup_keys_inj l1); [done..|].
  unfold key_le in *. by apply (anti_symm String.le).
Qed.

Lemma sorted_by_key_NoDup l : NoDup l.*1 → NoDup (sorted_by_key l).*1.
Proof. intros Hnd. by rewrite sorted_by_key_perm. Qed.

End AssocFacts.

(** ** The cache key *)

Lemma string_app_empty_r (s : string) : s +:+ "" = s.
Proof. induction s as [|c s IH]; [done|]. by rewrite <- IH at 2. Qed.

Lemma create_cached_params_nonempty (params : dict) :
  NoDup params.*1 → params ≠ [] →
  _create_cached_params params = "?" +:+ Urllib.urlencode (sorted_by_key params).
Proof.
  intros Hnd Hne. destruct params as [|x params]; [done|].
  unfold _create_cached_params.
  by rewrite assoc_of_items_NoDup by by apply sorted_by_key_NoDup.
Qed.

Lemma create_cached_params_perm (P1 P2 : dict) :
  NoDup P1.*1 → P1 ≡ₚ P2 → _create_cached_params P1 = _create_cached_params P2.
Proof.
  intros Hnd Hp. destruct P1 as [|x1 P1].
  { apply Permutation_nil in Hp. by subst. }
  destruct P2 as [|x2 P2].
  { symmetry in Hp. by apply Permutation_nil in Hp. }
  rewrite !create_cached_params_nonempty; try done.
  - by rewrite (sorted_by_key_unique _ _ Hnd Hp).
  - by rewrite <- Hp.
Qed.

(** C3. Two parameter mappings with the same (key, value) pairs, whatever
    their insertion order, give the same cache key for an endpoint. For a
    non-empty mapping the key is the endpoint's URL followed by [?] and the
    URL-encoded entries in ascending order of their names; for an empty
    mapping it is the URL alone. *)
Theorem cache_key_determinism (s : Session) (E : list segment) (P1 P2 : dict) :
  NoDup P1.*1 → P1 ≡ₚ P2 →
  cache_key s E P1 = cache_key s E P2
  ∧ (P1 = [] → cache_key s E P1 = request_url s E)
  ∧ (P1 ≠ [] →
     ∃ entries, entries ≡ₚ P1 ∧ StronglySorted key_le entries
       ∧ cache_key s E P1 = request_url s E +:+ "?" +:+ Urllib.urlencode entries).
Proof.
  intros Hnd Hp. unfold cache_key. split_and!.
  - by rewrite (create_cached_params_perm P1 P2).
  - intros ->. apply string_app_empty_r.
  - intros Hne. exists (sorted_by_key P1).
    split_and!; [apply sorted_by_key_perm|apply sorted_by_key_sorted|].
    by rewrite create_cached_params_nonempty.
Qed.

Lemma cache_key_determinism_witness :
  NoDup [("orderBy", SStr "modified"); ("limit", SInt 5)].*1
  ∧ [("orderBy", SStr "modified"); ("limit", SInt 5)]
      ≡ₚ [("limit", SInt 5); ("orderBy", SStr "modified")]
  ∧ cache_key (Scenario.session None) [SegStr "creators"]
      [("orderBy", SStr "modified"); ("limit", SInt 5)]
    = cache_key (Scenario.session None) [SegStr "creators"]
        [("limit", SInt 5); ("orderBy", SStr "modified")].
Proof.
  assert (NoDup [("orderBy", SStr "modified"); ("limit", SInt 5)].*1) as Hnd.
  { apply NoDup_cons. split; [|apply NoDup_singleton].
    intros Hin. apply list_elem_of_singleton in Hin. discriminate Hin. }
  assert ([("orderBy", SStr "modified"); ("limit", SInt 5)]
            ≡ₚ [("limit", SInt 5); ("orderBy", SStr "modified")]) as Hp.
  { apply perm_swap. }
  split_and!; [exact Hnd|exact Hp|].
  exact (proj1 (cache_key_determinism (Scenario.session None) [SegStr "creators"] _ _ Hnd Hp)).
Defined.

(** The key of a listing of creators, whichever way its parameters were
    put in. *)
Example creators_list_key :
  cache_key (Scenario.session None) [SegStr "creators"]
    [("orderBy", SStr "modified date"); ("limit", SInt 5)]
  = "http://gateway.marvel.com:80/v1/public/creators?limit=5&orderBy=modified+date"
  ∧ cache_key (Scenario.session None) [SegStr "creators"]
      [("limit", SInt 5); ("orderBy", SStr "modified date")]
    = "http://gateway.marvel.com:80/v1/public/creators?limit=5&orderBy=modified+date".
Proof. split; vm_compute; reflexivity. Qed.

(** ** Running [_call] *)

Lemma new_events_app {A} (st : Store) (r : outcome A * Store) evs :
  trace r.2 = (trace st ++ evs)%list → new_events st r = evs.
Proof. unfold new_events. intros ->. by rewrite drop_app_length. Qed.

Lemma lookup_run s key env st :
  _get_results_from_cache s key env st =
  match cache s with
  | Some c =>
      if truthy c then
        if has_get c then
          (Return (default JNull (cache_entries st !! key)), log (CacheGet key) st)
        else (Raise (CacheError (AttributeError "get")), st)
      else (Return JNull, st)
  | None => (Return JNull, st)
  end.
Proof.
  unfold _get_results_from_cache, cache_get.
  destruct (cache s) as [c|]; [|done].
  destruct (truthy c); [|done]. by destruct (has_get c).
Qed.

Lemma save_run s key data env st :
  _save_results_to_cache s key data env st =
  match cache s with
  | Some c =>
      if truthy c then
        if has_store c then
          (Return tt, {| params_obj := params_obj st;
                         cache_entries := <[key := data]> (cache_entries st);
                         clock_reads := clock_reads st;
                         trace := (trace st ++ [CacheStore key data])%list |})
        else (Raise (CacheError (AttributeError "store")), st)
      else (Return tt, st)
  | None => (Return tt, st)
  end.
Proof.
  unfold _save_results_to_cache, cache_store.
  destruct (cache s) as [c|]; [|done].
  destruct (truthy c); [|done]. by destruct (has_store c).
Qed.

(** [_call] is the cache lookup followed, on a miss, by the signed request
    and [handle_response]. *)
Lemma call_run s endpoint params env st :
  _call s endpoint params env st =
  let url := request_url s endpoint in
  let K := cache_key s endpoint (default [] params) in
  let st0 := {| params_obj := default [] params; cache_entries := cache_entries st;
                clock_reads := clock_reads st; trace := trace st |} in
  match _get_results_from_cache s K env st0 with
  | (Raise e, st1) => (Raise e, st1)
  | (Return cached, st1) =>
      if negb (Py.is_None cached) then (Py.getitem cached "results", st1)
      else
        let st2 := at_request s url env st1 in
        match http env url (params_obj st2) (headers s) with
        | Failure what => (Raise (RequestException what), st2)
        | Response _ None => (Raise JSONDecodeError, st2)
        | Response status_code (Some data) =>
            handle_response s K status_code data env st2
        end
  end.
Proof.
  unfold _call, handle_response, at_request, signed, request_url, cache_key.
  unfold mbind, M_bind. simpl.
  destruct (_get_results_from_cache _ _ _ _) as [[cached|e] st1]; [|done].
  destruct (negb (Py.is_None cached)); [done|].
  unfold requests_get, log. simpl.
  by destruct (http _ _ _ _) as [status_code [data|]|what].
Qed.

(** On a hit the entry decides the result and the lookup is the only
    interaction. *)
Lemma call_hit_run s c endpoint params env st V :
  let K := cache_key s endpoint (default [] params) in
  cache s = Some c → truthy c = true → has_get c = true →
  cache_entries st !! K = Some V → Py.is_None V = false →
  _call s endpoint params env st
  = (Py.getitem V "results",
     log (CacheGet K)
       {| params_obj := default [] params; cache_entries := cache_entries st;
          clock_reads := clock_reads st; trace := trace st |}).
Proof.
  intros K Hc Ht Hg HV HN. rewrite call_run. cbv zeta.
  rewrite lookup_run, Hc, Ht, Hg. fold K. simpl. rewrite HV. simpl. by rewrite HN.
Qed.

(** *** [handle_response], case by case *)

Lemma handle_response_message s K status_code fields message env st :
  assoc_get "message" fields = Some message →
  handle_response s K status_code (JObj fields) env st
  = (Raise (ApiError (Body message)), st).
Proof.
  intros Hm. unfold handle_response, mbind, M_bind, lift, raise. simpl.
  unfold assoc_mem. by rewrite Hm.
Qed.

Lemma handle_response_code s K status_code fields code env st :
  assoc_get "message" fields = None →
  assoc_get "code" fields = Some code →
  Py.ne_int code 200 = true →
  handle_response s K status_code (JObj fields) env st
  = (Raise (ApiError (Body (default JNull (assoc_get "status" fields)))), st).
Proof.
  intros Hm Hc Hne. unfold handle_response, mbind, M_bind, lift, raise. simpl.
  unfold assoc_mem. rewrite Hm, Hc. simpl. by rewrite Hne.
Qed.

Lemma handle_response_pass s K status_code fields env st :
  passes_classification fields = true →
  handle_response s K status_code (JObj fields) env st
  = match (if (status_code =? 200)%Z
           then _save_results_to_cache s K (unwrapped fields) env st
           else (Return tt, st)) with
    | (Return _, st') => (Py.getitem (unwrapped fields) "results", st')
    | (Raise e, st') => (Raise e, st')
    end.
Proof.
  unfold passes_classification, unwrapped, assoc_mem.
  intros [Hm Hc]%andb_true_iff.
  apply negb_true_iff in Hc.
  unfold handle_response, mbind, M_bind, lift, raise. simpl.
  unfold assoc_mem.
  destruct (assoc_get "message" fields); [done|]. simpl.
  destruct (assoc_get "code" fields); simpl in *; rewrite ?Hc.
  all: destruct (assoc_get "data" fields); simpl; by destruct (status_code =? 200)%Z.
Qed.

(** [handle_response] touches neither [params] nor the clock; all it may
    add to the trace is one cache write under the key it was given, and
    nothing when the status code is not 200. *)
Lemma handle_response_frame s K status_code data env st :
  let r := handle_response s K status_code data env st in
  params_obj r.2 = params_obj st
  ∧ clock_reads r.2 = clock_reads st
  ∧ (∃ evs, trace r.2 = (trace st ++ evs)%list
            ∧ Forall (λ ev, is_CacheStore ev = true ∧ key_of ev = Some K) evs)
  ∧ (status_code ≠ 200%Z → cache_entries r.2 = cache_entries st ∧ trace r.2 = trace st).
Proof.
  unfold handle_response, mbind, M_bind, lift, raise, mret, M_ret. simpl.
  destruct (Py.contains "message" data) as [[]|]; simpl.
  2: destruct (Py.get data "code" (JInt 200)) as [code|]; simpl.
  2: destruct (Py.ne_int code 200); simpl.
  3: destruct (Py.contains "data" data) as [[]|]; simpl.
  3: destruct (Py.getitem data "data") as [inner|]; simpl.
  all: repeat match goal with
       | |- context [Py.getitem ?d ?k] => destruct (Py.getitem d k); simpl
       | |- context [Py.get ?d ?k ?x] => destruct (Py.get d k x); simpl
       end.
  all: destruct (Z.eqb_spec status_code 200) as [->|Hne]; simpl.
  all: rewrite ?save_run.
  all: try (destruct (cache s) as [c|]; [destruct (truthy c), (has_store c)|]; simpl).
  all: split_and!; try done.
  all: first [ by exists []; rewrite app_nil_r
             | by eexists; split; [reflexivity | repeat constructor] ].
Qed.

(** A response that [handle_response] answers with a result is an
    envelope that passes the classification and whose payload has the
    result under [results]. *)
Lemma handle_response_returns s K status_code data env st results st' :
  handle_response s K status_code data env st = (Return results, st') →
  ∃ fields, data = JObj fields ∧ passes_classification fields = true
            ∧ Py.getitem (unwrapped fields) "results" = Return results.
Proof.
  destruct data as [| | | |str|items|fields].
  1-4: by intros [=].
  - unfold handle_response, mbind, M_bind, lift, raise. simpl.
    by destruct (Str.contains "message" str).
  - unfold handle_response, mbind, M_bind, lift, raise. simpl.
    by destruct (existsb _ items).
  - intros Hrun. exists fields. split; [done|].
    destruct (passes_classification fields) eqn:Hpass.
    + split; [done|]. rewrite (handle_response_pass _ _ _ _ _ _ Hpass) in Hrun.
      destruct (if (status_code =? 200)%Z then _ else _) as [[[]|e] st'']; by simplify_eq.
    + exfalso. unfold passes_classification, assoc_mem in Hpass.
      destruct (assoc_get "message" fields) as [m|] eqn:Hm.
      { by rewrite (handle_response_message _ _ _ _ _ _ _ Hm) in Hrun. }
      simpl in Hpass. apply negb_false_iff in Hpass.
      destruct (assoc_get "code" fields) as [code|] eqn:Hcode; [|done].
      by rewrite (handle_response_code _ _ _ _ _ _ _ Hm Hcode Hpass) in Hrun.
Qed.

(** *** The three ways through [_call] *)

(** The lookup fails for want of [get]; or it finds an entry, which
    decides the result; or it finds nothing and the request is sent. *)
Lemma call_cases s endpoint params env st :
  let p := default [] params in
  let url := request_url s endpoint in
  let K := cache_key s endpoint p in
  let r := _call s endpoint params env st in
  (r.1 = Raise (CacheError (AttributeError "get"))
   ∧ trace r.2 = trace st ∧ params_obj r.2 = p
   ∧ cache_entries r.2 = cache_entries st
   ∧ ∃ c, cache s = Some c ∧ truthy c = true ∧ has_get c = false)
  ∨ (∃ c V, cache s = Some c ∧ truthy c = true ∧ has_get c = true
     ∧ cache_entries st !! K = Some V ∧ Py.is_None V = false
     ∧ r.1 = Py.getitem V "results"
     ∧ trace r.2 = (trace st ++ [CacheGet K])%list ∧ params_obj r.2 = p
     ∧ cache_entries r.2 = cache_entries st)
  ∨ (∃ pre st1, (pre = [] ∨ pre = [CacheGet K])
     ∧ params_obj st1 = p ∧ cache_entries st1 = cache_entries st
     ∧ clock_reads st1 = clock_reads st ∧ trace st1 = (trace st ++ pre)%list
     ∧ r = let st2 := at_request s url env st1 in
           match http env url (params_obj st2) (headers s) with
           | Failure what => (Raise (RequestException what), st2)
           | Response _ None => (Raise JSONDecodeError, st2)
           | Response status_code (Some data) =>
               handle_response s K status_code data env st2
           end).
Proof.
  intros p url K r. subst r. rewrite call_run. cbv zeta. rewrite lookup_run.
  fold p url K.
  set (st0 := {| params_obj := p; cache_entries := cache_entries st;
                 clock_reads := clock_reads st; trace := trace st |}).
  destruct (cache s) as [c|] eqn:Hc;
    [destruct (truthy c) eqn:Ht; [destruct (has_get c) eqn:Hg|]|].
  - destruct (cache_entries st !! K) as [V|] eqn:HV; simpl; rewrite HV; simpl;
      [destruct (Py.is_None V) eqn:HN; simpl|].
    + right; right. exists [CacheGet K], (log (CacheGet K) st0). split_and!; by auto.
    + right; left. exists c, V. split_and!; done.
    + right; right. exists [CacheGet K], (log (CacheGet K) st0). split_and!; by auto.
  - left. split_and!; try done. by exists c.
  - right; right. exists [], st0. split_and!; auto. simpl. by rewrite app_nil_r.
  - right; right. exists [], st0. split_and!; auto. simpl. by rewrite app_nil_r.
Qed.

(** A request recorded by a call is the one to the endpoint's URL with the
    signed parameters, sent after a cache miss; the call's result is what
    [handle_response] makes of the answer. *)
Lemma call_request_inv s endpoint params env st url p hdrs :
  let r := _call s endpoint params env st in
  HttpGet url p hdrs ∈ new_events st r →
  url = request_url s endpoint
  ∧ p = signed s (clock env (clock_reads st)) (default [] params)
  ∧ hdrs = headers s
  ∧ ∃ pre st2, params_obj st2 = p
      ∧ cache_entries st2 = cache_entries st
      ∧ trace st2 = (trace st ++ pre ++ [HttpGet url p hdrs])%list
      ∧ Forall (λ ev, is_CacheStore ev = false ∧ is_HttpGet ev = false) pre
      ∧ r = match http env url p hdrs with
            | Failure what => (Raise (RequestException what), st2)
            | Response _ None => (Raise JSONDecodeError, st2)
            | Response status_code (Some data) =>
                handle_response s (cache_key s endpoint (default [] params))
                  status_code data env st2
            end.
Proof.
  intros r Hin.
  destruct (call_cases s endpoint params env st)
    as [(_ & Htr & _)|[(c & V & _ & _ & _ & _ & _ & _ & Htr & _)
       |(pre & st1 & Hpre & Hp & He & Hck & Htr & Hr)]]; fold r in Htr || fold r in Hr.
  - rewrite (new_events_app st r []) in Hin by (by rewrite app_nil_r). by inv Hin.
  - rewrite (new_events_app st r _ Htr) in Hin.
    apply list_elem_of_singleton in Hin. done.
  - set (st2 := at_request s (request_url s endpoint) env st1) in *.
    assert (params_obj st2
            = signed s (clock env (clock_reads st)) (default [] params)) as Hsp.
    { unfold st2, at_request. simpl. by rewrite Hp, Hck. }
    assert (trace st2 = (trace st ++ pre ++
              [HttpGet (request_url s endpoint) (params_obj st2) (headers s)])%list) as Htr2.
    { unfold st2 at 1, at_request. simpl. rewrite Htr. by rewrite <- app_assoc. }
    assert (cache_entries st2 = cache_entries st) as He2 by done.
    assert (Forall (λ ev, is_CacheStore ev = false ∧ is_HttpGet ev = false) pre) as Hpre'.
    { destruct Hpre as [->| ->]; by repeat constructor. }
    assert (∃ evs, trace r.2 = (trace st2 ++ evs)%list
                   ∧ Forall (λ ev, is_CacheStore ev = true) evs) as (evs & Hevs & Hst).
    { rewrite Hr. cbv zeta.
      destruct (http env (request_url s endpoint) (params_obj st2) (headers s))
        as [status_code [data|]|what]; simpl.
      - destruct (handle_response_frame s (cache_key s endpoint (default [] params))
                    status_code data env st2) as (_ & _ & (evs & Hevs & HF) & _).
        exists evs. split; [done|]. eapply Forall_impl; [exact HF|]. by intros ? [? _].
      - exists []. by rewrite app_nil_r.
      - exists []. by rewrite app_nil_r. }
    rewrite Htr2, <- !app_assoc in Hevs.
    rewrite (new_events_app st r _ Hevs) in Hin.
    rewrite !elem_of_app in Hin. destruct Hin as [Hin|[Hin|Hin]].
    + rewrite Forall_forall in Hpre'. by destruct (Hpre' _ Hin) as [_ ?].
    + apply list_elem_of_singleton in Hin. simplify_eq.
      split_and!; [done..|]. exists pre, st2. split_and!; done.
    + rewrite Forall_forall in Hst. by specialize (Hst _ Hin).
Qed.

(** Every interaction of a call with the cache is under the key built
    from the endpoint and the parameters the caller gave. *)
Lemma call_events s endpoint params env st :
  let K := cache_key s endpoint (default [] params) in
  let r := _call s endpoint params env st in
  ∃ evs, trace r.2 = (trace st ++ evs)%list
         ∧ Forall (λ ev, ∀ k, key_of ev = Some k → k = K) evs.
Proof.
  intros K r.
  destruct (call_cases s endpoint params env st)
    as [(_ & Htr & _)|[(c & V & _ & _ & _ & _ & _ & _ & Htr & _)
       |(pre & st1 & Hpre & Hp & He & Hck & Htr & Hr)]]; fold r in Htr || fold r in Hr.
  - exists []. by rewrite app_nil_r.
  - eexists. split; [exact Htr|]. repeat constructor. by intros k [= <-].
  - cbv zeta in Hr. set (st2 := at_request s (request_url s endpoint) env st1) in *.
    assert (Forall (λ ev, ∀ k, key_of ev = Some k → k = K)
              (pre ++ [HttpGet (request_url s endpoint) (params_obj st2) (headers s)]))
      as Hpre'.
    { apply Forall_app. split; [|by repeat constructor].
      destruct Hpre as [->| ->]; repeat constructor. by intros k [= <-]. }
    assert (trace st2 = (trace st ++ pre ++
              [HttpGet (request_url s endpoint) (params_obj st2) (headers s)])%list) as Htr2.
    { unfold st2 at 1, at_request. simpl. rewrite Htr. by rewrite <- app_assoc. }
    rewrite Hr.
    destruct (http env (request_url s endpoint) (params_obj st2) (headers s))
      as [status_code [data|]|what]; simpl; [|by eexists..].
    destruct (handle_response_frame s K status_code data env st2)
      as (_ & _ & (evs & Hevs & HF) & _).
    fold K. rewrite Hevs, Htr2. eexists. rewrite <- !app_assoc. split; [reflexivity|].
    rewrite app_assoc. apply Forall_app. split; [done|].
    eapply Forall_impl; [exact HF|]. intros ev [_ Hk] k Hk'. congruence.
Qed.

(** ** The cache in front of the network *)

(** C1. When the cache collaborator the session consults (it passes the
    guard [if self.cache:] and has [get]) holds an entry [V] under the key
    [K] built from the endpoint and the parameters, [_call] returns the
    [results] field of [V]; its only interaction is the lookup of [K]: no
    HTTP request is made and nothing is stored. *)
Theorem cache_hit_short_circuit s c endpoint (params : option dict) env st V results :
  let K := cache_key s endpoint (default [] params) in
  let r := _call s endpoint params env st in
  cache s = Some c → truthy c = true → has_get c = true →
  cache_entries st !! K = Some V →
  Py.getitem V "results" = Return results →
  r.1 = Return results
  ∧ new_events st r = [CacheGet K]
  ∧ Forall (λ ev, is_HttpGet ev = false ∧ is_CacheStore ev = false) (new_events st r)
  ∧ cache_entries r.2 = cache_entries st.
Proof.
  intros K r Hc Ht Hg HV Hres.
  assert (Py.is_None V = false) as HN by (by destruct V).
  assert (r = (Return results,
               log (CacheGet K)
                 {| params_obj := default [] params; cache_entries := cache_entries st;
                    clock_reads := clock_reads st; trace := trace st |})) as Hr.
  { unfold r. by rewrite (call_hit_run s c endpoint params env st V), Hres. }
  assert (new_events st r = [CacheGet K]) as Hev.
  { apply new_events_app. by rewrite Hr. }
  rewrite Hev. split_and!; [by rewrite Hr|done|by repeat constructor|by rewrite Hr].
Qed.

Lemma cache_hit_short_circuit_witness :
  cache (Scenario.session (Some Scenario.sqlite_cache)) = Some Scenario.sqlite_cache
  ∧ truthy Scenario.sqlite_cache = true
  ∧ has_get Scenario.sqlite_cache = true
  ∧ cache_entries Scenario.warm
      !! cache_key (Scenario.session (Some Scenario.sqlite_cache)) Scenario.comics_1 []
    = Some Scenario.cached_comics_1
  ∧ Py.getitem Scenario.cached_comics_1 "results" = Return (JArr [Scenario.comic_1])
  ∧ (_call (Scenario.session (Some Scenario.sqlite_cache)) Scenario.comics_1 None
       (Scenario.world (Failure "unreachable")) Scenario.warm).1
    = Return (JArr [Scenario.comic_1]).
Proof.
  assert (cache_entries Scenario.warm
            !! cache_key (Scenario.session (Some Scenario.sqlite_cache)) Scenario.comics_1 []
          = Some Scenario.cached_comics_1) as Hheld by (vm_compute; reflexivity).
  split_and!; [reflexivity..|exact Hheld|reflexivity|].
  exact (proj1 (cache_hit_short_circuit
                  (Scenario.session (Some Scenario.sqlite_cache)) Scenario.sqlite_cache
                  Scenario.comics_1 None (Scenario.world (Failure "unreachable"))
                  Scenario.warm Scenario.cached_comics_1 (JArr [Scenario.comic_1])
                  eq_refl eq_refl eq_refl Hheld eq_refl)).
Defined.

(** C2. The key [_call] uses with the cache is built from the endpoint and
    the parameters as the caller gave them: every lookup and every write,
    the write coming after [_update_params] has added [hash], [apikey] and
    [ts], is under that key. The key does not depend on the clock, so two
    calls with the same endpoint and parameters made at different times
    use the same key. *)
Theorem cache_key_ignores_time s endpoint (params : dict) env1 st1 env2 st2 :
  let K := request_url s endpoint +:+ _create_cached_params params in
  let r1 := _call s endpoint (Some params) env1 st1 in
  let r2 := _call s endpoint (Some params) env2 st2 in
  Forall (λ ev, ∀ k, key_of ev = Some k → k = K) (new_events st1 r1)
  ∧ Forall (λ ev, ∀ k, key_of ev = Some k → k = K) (new_events st2 r2).
Proof.
  intros K r1 r2.
  destruct (call_events s endpoint (Some params) env1 st1) as (evs1 & H1 & HF1).
  destruct (call_events s endpoint (Some params) env2 st2) as (evs2 & H2 & HF2).
  fold r1 in H1. fold r2 in H2.
  by rewrite (new_events_app _ _ _ H1), (new_events_app _ _ _ H2).
Qed.

(** X13. A call that went to the network, got status 200 and returned leaves
    its payload in a working cache; the same request made again, at any
    later time and with the parameters inserted in any order, is answered
    from the cache with the same result. *)
Lemma repeated_call_is_a_hit s c endpoint (P1 P2 : dict) env1 st env2
    url p hdrs body results :
  let r1 := _call s endpoint (Some P1) env1 st in
  let r2 := _call s endpoint (Some P2) env2 r1.2 in
  cache s = Some c → truthy c = true → has_get c = true → has_store c = true →
  NoDup P1.*1 → P1 ≡ₚ P2 →
  HttpGet url p hdrs ∈ new_events st r1 →
  http env1 url p hdrs = Response 200 body →
  r1.1 = Return results →
  r2.1 = Return results ∧ new_events r1.2 r2 = [CacheGet (cache_key s endpoint P1)].
Proof.
  intros r1 r2 Hc Ht Hg Hs Hnd Hperm Hin Hhttp Hres.
  destruct (call_request_inv s endpoint (Some P1) env1 st url p hdrs Hin)
    as (_ & _ & _ & pre & st2 & _ & He & Htr & Hpre & Hr).
  fold r1 in Hr. rewrite Hhttp in Hr. destruct body as [data|].
  2: { rewrite Hr in Hres. done. }
  simpl in Hr. set (K := cache_key s endpoint P1) in *.
  destruct (handle_response s K 200 data env1 st2) as [o st3] eqn:Hrun.
  rewrite Hr in Hres. simpl in Hres. subst o.
  destruct (handle_response_returns _ _ _ _ _ _ _ _ Hrun)
    as (fields & -> & Hpass & Hget).
  rewrite (handle_response_pass _ _ _ _ _ _ Hpass) in Hrun. simpl in Hrun.
  rewrite save_run, Hc, Ht, Hs, Hget in Hrun. simplify_eq.
  assert (cache_key s endpoint P2 = K) as HK.
  { unfold K, cache_key. by rewrite (create_cached_params_perm P1 P2). }
  assert (Py.is_None (unwrapped fields) = false) as HN.
  { by destruct (unwrapped fields). }
  unfold r2. rewrite Hr. simpl.
  rewrite (call_hit_run s c endpoint (Some P2) env2 _ (unwrapped fields) Hc Ht Hg); simpl.
  - split; [done|]. apply new_events_app. simpl. by rewrite HK.
  - rewrite HK. apply lookup_insert_eq.
  - done.
Qed.

(** A request made once is served from the cache when it is made again
    later, with the network down. *)
Example same_request_later :
  let s := Scenario.session (Some Scenario.sqlite_cache) in
  let later := {| clock := fun _ => "2024-02-0417:40:02";
                  http := fun _ _ _ => Failure "unreachable" |} in
  let r1 := _call s [SegStr "comics"] (Some Scenario.page)
              (Scenario.world (Response 200 (Some Scenario.ok_body))) Scenario.fresh in
  let r2 := _call s [SegStr "comics"] (Some (reverse Scenario.page)) later r1.2 in
  r1.1 = Return (JArr [Scenario.comic_1])
  ∧ r2.1 = Return (JArr [Scenario.comic_1])
  ∧ new_events Scenario.fresh r1
    = [CacheGet Scenario.comics_page_key;
       HttpGet "http://gateway.marvel.com:80/v1/public/comics"
         (signed s Scenario.now Scenario.page) Scenario.user_agent;
       CacheStore Scenario.comics_page_key (JObj [("count", JInt 1);
                                                  ("results", JArr [Scenario.comic_1])])]
  ∧ new_events r1.2 r2 = [CacheGet Scenario.comics_page_key].
Proof. vm_compute. by split_and!. Qed.

(** C10. On a cache hit [_call] leaves the caller's [params] as they were.
    The mapping changes only on the way to the network: whenever it is not
    what the caller gave, it holds the signed parameters and the request
    that carries them has been sent. *)
Theorem cache_hit_leaves_params s c endpoint (params : dict) env st V :
  let K := cache_key s endpoint params in
  let r := _call s endpoint (Some params) env st in
  (cache s = Some c → truthy c = true → has_get c = true →
   cache_entries st !! K = Some V → Py.is_None V = false →
   params_obj r.2 = params)
  ∧ (params_obj r.2 = params
     ∨ (params_obj r.2 = signed s (clock env (clock_reads st)) params
        ∧ HttpGet (request_url s endpoint) (params_obj r.2) (headers s)
            ∈ new_events st r)).
Proof.
  intros K r. split.
  - intros Hc Ht Hg HV HN. unfold r.
    by rewrite (call_hit_run s c endpoint (Some params) env st V).
  - destruct (call_cases s endpoint (Some params) env st)
      as [(_ & _ & Hp & _)|[(c' & V' & _ & _ & _ & _ & _ & _ & _ & Hp & _)
         |(pre & st1 & Hpre & Hp & He & Hck & Htr & Hr)]]; fold r in Hp || fold r in Hr;
      [by left..|right].
    cbv zeta in Hr. set (st2 := at_request s (request_url s endpoint) env st1) in *.
    assert (params_obj st2 = signed s (clock env (clock_reads st)) params) as Hsp.
    { unfold st2, at_request. simpl. by rewrite Hp, Hck. }
    assert (trace st2 = (trace st ++ pre ++
              [HttpGet (request_url s endpoint) (params_obj st2) (headers s)])%list) as Htr2.
    { unfold st2 at 1, at_request. simpl. rewrite Htr. by rewrite <- app_assoc. }
    assert (params_obj r.2 = params_obj st2
            ∧ ∃ evs, trace r.2 = (trace st2 ++ evs)%list) as (Hp' & evs & Hevs).
    { rewrite Hr.
      destruct (http env (request_url s endpoint) (params_obj st2) (headers s))
        as [status_code [data|]|what]; simpl;
        [|split; [done|exists []; by rewrite app_nil_r]..].
      destruct (handle_response_frame s (cache_key s endpoint (default [] (Some params)))
                  status_code data env st2) as (Hpo & _ & (evs & Hevs & _) & _).
      split; [done|by exists evs]. }
    split; [by rewrite Hp'|].
    rewrite Htr2, <- !app_assoc in Hevs. rewrite (new_events_app _ _ _ Hevs), Hp'.
    rewrite !elem_of_app. right; left. by apply list_elem_of_singleton.
Qed.

Lemma cache_hit_leaves_params_witness :
  cache (Scenario.session (Some Scenario.sqlite_cache)) = Some Scenario.sqlite_cache
  ∧ truthy Scenario.sqlite_cache = true
  ∧ has_get Scenario.sqlite_cache = true
  ∧ cache_entries Scenario.warm
      !! cache_key (Scenario.session (Some Scenario.sqlite_cache)) [SegStr "comics"]
           Scenario.page
    = Some Scenario.cached_comics_1
  ∧ Py.is_None Scenario.cached_comics_1 = false
  ∧ params_obj
      (_call (Scenario.session (Some Scenario.sqlite_cache)) [SegStr "comics"]
         (Some Scenario.page) (Scenario.world (Failure "unreachable")) Scenario.warm).2
    = Scenario.page.
Proof.
  assert (cache_entries Scenario.warm
            !! cache_key (Scenario.session (Some Scenario.sqlite_cache)) [SegStr "comics"]
                 Scenario.page
          = Some Scenario.cached_comics_1) as Hheld by (vm_compute; reflexivity).
  split_and!; [reflexivity..|exact Hheld|reflexivity|].
  exact (proj1 (cache_hit_leaves_params
                  (Scenario.session (Some Scenario.sqlite_cache)) Scenario.sqlite_cache
                  [SegStr "comics"] Scenario.page (Scenario.world (Failure "unreachable"))
                  Scenario.warm Scenario.cached_comics_1)
               eq_refl eq_refl eq_refl Hheld eq_refl).
Defined.

(** ** What [_call] makes of a response *)

(** C4. A response whose body is a JSON object with a [message] field
    makes [_call] raise [ApiError] with that message, whatever the HTTP
    status code, 200 included; the response is not written to the cache. *)
Theorem error_message_precedence s endpoint params env st url p hdrs
    status_code fields message :
  let r := _call s endpoint params env st in
  HttpGet url p hdrs ∈ new_events st r →
  http env url p hdrs = Response status_code (Some (JObj fields)) →
  assoc_get "message" fields = Some message →
  r.1 = Raise (ApiError (Body message))
  ∧ cache_entries r.2 = cache_entries st
  ∧ Forall (λ ev, is_CacheStore ev = false) (new_events st r).
Proof.
  intros r Hin Hhttp Hm.
  destruct (call_request_inv s endpoint params env st url p hdrs Hin)
    as (_ & _ & _ & pre & st2 & _ & He & Htr & Hpre & Hr).
  fold r in Hr. rewrite Hhttp, (handle_response_message _ _ _ _ _ _ _ Hm) in Hr.
  rewrite (new_events_app st r (pre ++ [HttpGet url p hdrs])) by (by rewrite Hr).
  rewrite Hr. split_and!; [done..|].
  apply Forall_app. split; [|by repeat constructor].
  eapply Forall_impl; [exact Hpre|]. by intros ? [? _].
Qed.

Lemma error_message_precedence_witness :
  HttpGet Scenario.comics_1_url Scenario.signed_params Scenario.user_agent
    ∈ new_events Scenario.fresh
        (_call (Scenario.session (Some Scenario.sqlite_cache)) Scenario.comics_1 None
           (Scenario.world (Response 200 (Some Scenario.bad_key_body))) Scenario.fresh)
  ∧ http (Scenario.world (Response 200 (Some Scenario.bad_key_body)))
      Scenario.comics_1_url Scenario.signed_params Scenario.user_agent
    = Response 200 (Some (JObj [("message", JStr "bad key")]))
  ∧ assoc_get "message" [("message", JStr "bad key")] = Some (JStr "bad key")
  ∧ (_call (Scenario.session (Some Scenario.sqlite_cache)) Scenario.comics_1 None
       (Scenario.world (Response 200 (Some Scenario.bad_key_body))) Scenario.fresh).1
    = Raise (ApiError (Body (JStr "bad key"))).
Proof.
  assert (HttpGet Scenario.comics_1_url Scenario.signed_params Scenario.user_agent
            ∈ new_events Scenario.fresh
                (_call (Scenario.session (Some Scenario.sqlite_cache)) Scenario.comics_1 None
                   (Scenario.world (Response 200 (Some Scenario.bad_key_body)))
                   Scenario.fresh)) as Hsent.
  { vm_compute. repeat constructor. }
  split_and!; [exact Hsent|reflexivity..|].
  exact (proj1 (error_message_precedence
                  (Scenario.session (Some Scenario.sqlite_cache)) Scenario.comics_1 None
                  (Scenario.world (Response 200 (Some Scenario.bad_key_body)))
                  Scenario.fresh Scenario.comics_1_url Scenario.signed_params
                  Scenario.user_agent 200 [("message", JStr "bad key")] (JStr "bad key")
                  Hsent eq_refl eq_refl)).
Defined.

(** C5, as the code has it. A response whose body is a JSON object without
    [message] and with a [code] field other than 200 makes [_call] raise
    [ApiError] with the body's [status] field ([None] when there is none),
    whatever the HTTP status code. The HTTP status code alone does not
    make a response an error: a response whose status code is not 200 is
    kept out of the cache, and when its body passes the classification
    the call goes on to the [results] of the payload. *)
Theorem error_code_classification s endpoint params env st url p hdrs status_code body :
  let r := _call s endpoint params env st in
  HttpGet url p hdrs ∈ new_events st r →
  http env url p hdrs = Response status_code body →
  (∀ fields code,
     body = Some (JObj fields) → assoc_get "message" fields = None →
     assoc_get "code" fields = Some code → Py.ne_int code 200 = true →
     r.1 = Raise (ApiError (Body (default JNull (assoc_get "status" fields)))))
  ∧ (status_code ≠ 200%Z →
     cache_entries r.2 = cache_entries st
     ∧ Forall (λ ev, is_CacheStore ev = false) (new_events st r)
     ∧ ∀ fields, body = Some (JObj fields) → passes_classification fields = true →
         r.1 = Py.getitem (unwrapped fields) "results").
Proof.
  intros r Hin Hhttp.
  destruct (call_request_inv s endpoint params env st url p hdrs Hin)
    as (_ & _ & _ & pre & st2 & _ & He & Htr & Hpre & Hr).
  fold r in Hr. rewrite Hhttp in Hr. split.
  - intros fields code -> Hm Hc Hne.
    by rewrite Hr, (handle_response_code _ _ _ _ _ _ _ Hm Hc Hne).
  - intros Hstatus.
    assert (cache_entries r.2 = cache_entries st ∧ trace r.2 = trace st2) as [He' Htr'].
    { rewrite Hr. destruct body as [data|]; [|done].
      destruct (handle_response_frame s (cache_key s endpoint (default [] params))
                  status_code data env st2) as (_ & _ & _ & Hframe).
      destruct (Hframe Hstatus) as [-> ->]. done. }
    split_and!; [done| |].
    + rewrite (new_events_app st r (pre ++ [HttpGet url p hdrs])) by (by rewrite Htr').
      apply Forall_app. split; [|by repeat constructor].
      eapply Forall_impl; [exact Hpre|]. by intros ? [? _].
    + intros fields -> Hpass. rewrite Hr, (handle_response_pass _ _ _ _ _ _ Hpass).
      by destruct (Z.eqb_spec status_code 200).
Qed.

Lemma error_code_classification_witness :
  HttpGet Scenario.comics_1_url Scenario.signed_params Scenario.user_agent
    ∈ new_events Scenario.fresh
        (_call (Scenario.session (Some Scenario.sqlite_cache)) Scenario.comics_1 None
           (Scenario.world (Response 404 (Some Scenario.not_found_body))) Scenario.fresh)
  ∧ http (Scenario.world (Response 404 (Some Scenario.not_found_body)))
      Scenario.comics_1_url Scenario.signed_params Scenario.user_agent
    = Response 404 (Some Scenario.not_found_body)
  ∧ Py.ne_int (JInt 404) 200 = true
  ∧ (_call (Scenario.session (Some Scenario.sqlite_cache)) Scenario.comics_1 None
       (Scenario.world (Response 404 (Some Scenario.not_found_body))) Scenario.fresh).1
    = Raise (ApiError (Body (JStr "We couldn't find that comic"))).
Proof.
  assert (HttpGet Scenario.comics_1_url Scenario.signed_params Scenario.user_agent
            ∈ new_events Scenario.fresh
                (_call (Scenario.session (Some Scenario.sqlite_cache)) Scenario.comics_1 None
                   (Scenario.world (Response 404 (Some Scenario.not_found_body)))
                   Scenario.fresh)) as Hsent.
  { vm_compute. repeat constructor. }
  split_and!; [exact Hsent|reflexivity..|].
  exact (proj1 (error_code_classification
                  (Scenario.session (Some Scenario.sqlite_cache)) Scenario.comics_1 None
                  (Scenario.world (Response 404 (Some Scenario.not_found_body)))
                  Scenario.fresh Scenario.comics_1_url Scenario.signed_params
                  Scenario.user_agent 404 (Some Scenario.not_found_body) Hsent eq_refl)
               _ (JInt 404) eq_refl eq_refl eq_refl eq_refl).
Defined.

(** A status code other than 200 is not surfaced as [ApiError] by itself:
    a 502 whose body is not JSON fails in [response.json()], and a 203
    that carries the usual envelope is answered like a 200. *)
Lemma non_200_status_is_not_an_ApiError :
  (_call (Scenario.session None) Scenario.comics_1 None
     (Scenario.world (Response 502 None)) Scenario.fresh).1
  = Raise JSONDecodeError
  ∧ (_call (Scenario.session None) Scenario.comics_1 None
       (Scenario.world (Response 203 (Some Scenario.ok_body))) Scenario.fresh).1
    = Return (JArr [Scenario.comic_1]).
Proof. split; vm_compute; reflexivity. Qed.

(** C6, as the code has it. When a response passes the classification and
    its payload has no [results] field, [_call] fails: with [CacheError]
    when the cache write that comes first has failed, and otherwise with
    the exception of the lookup of [results] itself, [KeyError] on a JSON
    object and [TypeError] on anything else. These two are exceptions of
    Python, and no [ApiError]. *)
Theorem missing_results_lookup_error s endpoint params env st url p hdrs
    status_code fields :
  let r := _call s endpoint params env st in
  let write_fails := (status_code =? 200)%Z && store_fails s in
  HttpGet url p hdrs ∈ new_events st r →
  http env url p hdrs = Response status_code (Some (JObj fields)) →
  passes_classification fields = true →
  has_results (unwrapped fields) = false →
  ∃ e, r.1 = Raise e
       ∧ e = (if write_fails
              then CacheError (AttributeError "store")
              else match unwrapped fields with
                   | JObj _ => KeyError (JStr "results")
                   | _ => TypeError
                   end)
       ∧ (write_fails = false →
          (e = KeyError (JStr "results") ∨ e = TypeError)
          ∧ ∀ arg, e ≠ ApiError arg).
Proof.
  intros r write_fails Hin Hhttp Hpass Hres.
  destruct (call_request_inv s endpoint params env st url p hdrs Hin)
    as (_ & _ & _ & pre & st2 & _ & He & Htr & Hpre & Hr).
  fold r in Hr. rewrite Hhttp, (handle_response_pass _ _ _ _ _ _ Hpass) in Hr.
  assert (Py.getitem (unwrapped fields) "results"
          = Raise (match unwrapped fields with
                   | JObj _ => KeyError (JStr "results")
                   | _ => TypeError
                   end)) as Hget.
  { unfold has_results in Hres. destruct (unwrapped fields) as [| | | | | |inner]; try done.
    simpl in *. by destruct (assoc_get "results" inner). }
  assert (∀ e, e = match unwrapped fields with
                   | JObj _ => KeyError (JStr "results")
                   | _ => TypeError
                   end →
               (e = KeyError (JStr "results") ∨ e = TypeError)
               ∧ ∀ arg, e ≠ ApiError arg) as Hlookup.
  { intros e ->. destruct (unwrapped fields); by auto. }
  rewrite Hr, Hget. unfold write_fails, store_fails.
  destruct (status_code =? 200)%Z; simpl.
  - rewrite save_run.
    destruct (cache s) as [c|]; [destruct (truthy c), (has_store c)|]; simpl;
      eexists; (split_and!; [reflexivity|reflexivity|]); try done;
      intros _; by apply Hlookup.
  - eexists; (split_and!; [reflexivity|reflexivity|]). intros _. by apply Hlookup.
Qed.

Lemma missing_results_lookup_error_witness :
  HttpGet Scenario.comics_1_url Scenario.signed_params Scenario.user_agent
    ∈ new_events Scenario.fresh
        (_call (Scenario.session (Some Scenario.sqlite_cache)) Scenario.comics_1 None
           (Scenario.world (Response 200 (Some Scenario.no_results_body))) Scenario.fresh)
  ∧ http (Scenario.world (Response 200 (Some Scenario.no_results_body)))
      Scenario.comics_1_url Scenario.signed_params Scenario.user_agent
    = Response 200 (Some Scenario.no_results_body)
  ∧ (200 =? 200)%Z && store_fails (Scenario.session (Some Scenario.sqlite_cache)) = false
  ∧ ∃ e, (_call (Scenario.session (Some Scenario.sqlite_cache)) Scenario.comics_1 None
            (Scenario.world (Response 200 (Some Scenario.no_results_body)))
            Scenario.fresh).1 = Raise e
         ∧ (e = KeyError (JStr "results") ∨ e = TypeError)
         ∧ ∀ arg, e ≠ ApiError arg.
Proof.
  assert (HttpGet Scenario.comics_1_url Scenario.signed_params Scenario.user_agent
            ∈ new_events Scenario.fresh
                (_call (Scenario.session (Some Scenario.sqlite_cache)) Scenario.comics_1 None
                   (Scenario.world (Response 200 (Some Scenario.no_results_body)))
                   Scenario.fresh)) as Hsent.
  { vm_compute. repeat constructor. }
  split_and!; [exact Hsent|reflexivity|reflexivity|].
  destruct (missing_results_lookup_error
              (Scenario.session (Some Scenario.sqlite_cache)) Scenario.comics_1 None
              (Scenario.world (Response 200 (Some Scenario.no_results_body)))
              Scenario.fresh Scenario.comics_1_url Scenario.signed_params
              Scenario.user_agent 200 _ Hsent eq_refl eq_refl eq_refl)
    as (e & Hraise & _ & Hnot).
  exists e. destruct (Hnot eq_refl) as [Hkind Hno].
  split_and!; [exact Hraise|exact Hkind|exact Hno].
Defined.

(** An envelope without [results] that comes with status 200: the call
    fails with [KeyError], and the payload has been cached by then. *)
Lemma missing_results_is_a_KeyError :
  passes_classification
    [("code", JInt 200); ("status", JStr "Ok"); ("data", JObj [("count", JInt 0)])] = true
  ∧ has_results (JObj [("count", JInt 0)]) = false
  ∧ (_call (Scenario.session (Some Scenario.sqlite_cache)) Scenario.comics_1 None
       (Scenario.world (Response 200 (Some Scenario.no_results_body))) Scenario.fresh).1
    = Raise (KeyError (JStr "results"))
  ∧ cache_entries
      (_call (Scenario.session (Some Scenario.sqlite_cache)) Scenario.comics_1 None
         (Scenario.world (Response 200 (Some Scenario.no_results_body))) Scenario.fresh).2
      !! Scenario.comics_1_url
    = Some (JObj [("count", JInt 0)]).
Proof. split_and!; vm_compute; reflexivity. Qed.

(** ** A collaborator that is not a cache *)

Lemma py_never_CacheError cause :
  (∀ d k, Py.getitem d k ≠ Raise (CacheError cause))
  ∧ (∀ d k x, Py.get d k x ≠ Raise (CacheError cause))
  ∧ (∀ d k, Py.contains k d ≠ Raise (CacheError cause)).
Proof.
  split_and!.
  - intros [] k; simpl; try done. by destruct (assoc_get k fields).
  - by intros [] k x.
  - by intros [] k.
Qed.

Lemma handle_response_cache_unused s K status_code data env st :
  cache_unused s = true →
  let r := handle_response s K status_code data env st in
  r.2 = st ∧ ∀ cause, r.1 ≠ Raise (CacheError cause).
Proof.
  intros Hunused.
  assert (∀ d st', _save_results_to_cache s K d env st' = (Return tt, st')) as Hsave.
  { intros d st'. rewrite save_run. unfold cache_unused in Hunused.
    destruct (cache s) as [c|]; [|done]. by destruct (truthy c). }
  unfold handle_response, mbind, M_bind, lift, raise, mret, M_ret. simpl.
  destruct (Py.contains "message" data) as [[]|] eqn:?; simpl.
  2: destruct (Py.get data "code" (JInt 200)) as [code|] eqn:?; simpl.
  2: destruct (Py.ne_int code 200); simpl.
  3: destruct (Py.contains "data" data) as [[]|] eqn:?; simpl.
  3: destruct (Py.getitem data "data") as [inner|] eqn:?; simpl.
  all: repeat match goal with
       | |- context [Py.getitem ?d ?k] => destruct (Py.getitem d k) eqn:?; simpl
       | |- context [Py.get ?d ?k ?x] => destruct (Py.get d k x) eqn:?; simpl
       end.
  all: destruct (status_code =? 200)%Z; simpl; rewrite ?Hsave; simpl.
  all: split; [done|]; try done.
  all: intros cause [= ->].
  all: destruct (py_never_CacheError cause) as (Hgetitem & Hget & Hcontains).
  all: first [ by eapply Hgetitem | by eapply Hget | by eapply Hcontains ].
Qed.

(** Without a collaborator in use a call has no interaction with a cache
    and raises no [CacheError]. *)
Lemma call_cache_unused s endpoint params env st :
  cache_unused s = true →
  let r := _call s endpoint params env st in
  Forall (λ ev, key_of ev = None) (new_events st r)
  ∧ cache_entries r.2 = cache_entries st
  ∧ ∀ cause, r.1 ≠ Raise (CacheError cause).
Proof.
  intros Hunused r. unfold r. rewrite call_run. cbv zeta. rewrite lookup_run.
  set (st0 := {| params_obj := default [] params; cache_entries := cache_entries st;
                 clock_reads := clock_reads st; trace := trace st |}).
  assert (match cache s with
          | Some c => if truthy c then _ else (Return JNull, st0)
          | None => (Return JNull, st0)
          end = (Return JNull, st0)) as ->.
  { unfold cache_unused in Hunused. destruct (cache s) as [c|]; [|done].
    by destruct (truthy c). }
  simpl.
  set (st2 := at_request s (request_url s endpoint) env st0).
  assert (trace st2 = (trace st ++
            [HttpGet (request_url s endpoint) (params_obj st2) (headers s)])%list)
    as Htr by done.
  destruct (http env (request_url s endpoint) _ (headers s)) as [status_code [data|]|what].
  - destruct (handle_response_cache_unused s (cache_key s endpoint (default [] params))
                status_code data env st2 Hunused) as [Hst Hno].
    split_and!; [|by rewrite Hst|done].
    erewrite new_events_app; [|rewrite Hst; exact Htr]. by repeat constructor.
  - split_and!; [|done..]. erewrite new_events_app; [|exact Htr]. by repeat constructor.
  - split_and!; [|done..]. erewrite new_events_app; [|exact Htr]. by repeat constructor.
Qed.

(** C8, as the code has it. For a collaborator that counts as true in the
    guard [if self.cache:], a missing [get] makes the call raise
    [CacheError] around the [AttributeError] before anything is sent, so
    the failed lookup is not taken for a miss; a missing [store] makes the
    call raise [CacheError] when a response with status 200 that passed
    the classification is about to be written. A collaborator that counts
    as false in the guard is not consulted, whatever it lacks: no lookup,
    no write, no [CacheError]. *)
Theorem malformed_cache_collaborator s c endpoint params env st :
  let r := _call s endpoint params env st in
  cache s = Some c →
  (truthy c = true → has_get c = false →
     r.1 = Raise (CacheError (AttributeError "get")) ∧ new_events st r = [])
  ∧ (truthy c = true → has_store c = false →
     ∀ url p hdrs fields,
       HttpGet url p hdrs ∈ new_events st r →
       http env url p hdrs = Response 200 (Some (JObj fields)) →
       passes_classification fields = true →
       r.1 = Raise (CacheError (AttributeError "store")))
  ∧ (truthy c = false →
     Forall (λ ev, key_of ev = None) (new_events st r)
     ∧ cache_entries r.2 = cache_entries st
     ∧ ∀ cause, r.1 ≠ Raise (CacheError cause)).
Proof.
  intros r Hc. split_and!.
  - intros Ht Hg.
    assert (r = (Raise (CacheError (AttributeError "get")),
                 {| params_obj := default [] params; cache_entries := cache_entries st;
                    clock_reads := clock_reads st; trace := trace st |})) as Hr.
    { unfold r. rewrite call_run. cbv zeta. by rewrite lookup_run, Hc, Ht, Hg. }
    split; [by rewrite Hr|]. apply new_events_app. rewrite Hr. simpl. by rewrite app_nil_r.
  - intros Ht Hs url p hdrs fields Hin Hhttp Hpass.
    destruct (call_request_inv s endpoint params env st url p hdrs Hin)
      as (_ & _ & _ & pre & st2 & _ & He & Htr & Hpre & Hr).
    fold r in Hr. rewrite Hhttp, (handle_response_pass _ _ _ _ _ _ Hpass) in Hr.
    simpl in Hr. rewrite save_run, Hc, Ht, Hs in Hr. by rewrite Hr.
  - intros Ht. apply call_cache_unused. unfold cache_unused. by rewrite Hc, Ht.
Qed.

Lemma malformed_cache_collaborator_witness :
  cache (Scenario.session (Some Scenario.write_only_cache)) = Some Scenario.write_only_cache
  ∧ truthy Scenario.write_only_cache = true
  ∧ has_get Scenario.write_only_cache = false
  ∧ (_call (Scenario.session (Some Scenario.write_only_cache)) Scenario.comics_1 None
       (Scenario.world (Response 200 (Some Scenario.ok_body))) Scenario.warm).1
    = Raise (CacheError (AttributeError "get"))
  ∧ new_events Scenario.warm
      (_call (Scenario.session (Some Scenario.write_only_cache)) Scenario.comics_1 None
         (Scenario.world (Response 200 (Some Scenario.ok_body))) Scenario.warm)
    = [].
Proof.
  split_and!; [reflexivity..| |];
    apply (proj1 (malformed_cache_collaborator
                    (Scenario.session (Some Scenario.write_only_cache))
                    Scenario.write_only_cache Scenario.comics_1 None
                    (Scenario.world (Response 200 (Some Scenario.ok_body))) Scenario.warm
                    eq_refl) eq_refl eq_refl).
Defined.

(** A collaborator that is false in a condition is not consulted at all:
    an empty list, which has no [get], lets the call go to the network and
    return; an empty dict, which has no [store], lets a response with
    status 200 through without a write. No [CacheError] is raised. *)
Lemma falsy_collaborator_is_ignored :
  has_get Scenario.empty_list = false
  ∧ (_call (Scenario.session (Some Scenario.empty_list)) Scenario.comics_1 None
       (Scenario.world (Response 200 (Some Scenario.ok_body))) Scenario.fresh).1
    = Return (JArr [Scenario.comic_1])
  ∧ new_events Scenario.fresh
      (_call (Scenario.session (Some Scenario.empty_list)) Scenario.comics_1 None
         (Scenario.world (Response 200 (Some Scenario.ok_body))) Scenario.fresh)
    = [HttpGet Scenario.comics_1_url Scenario.signed_params Scenario.user_agent]
  ∧ has_store Scenario.empty_dict = false
  ∧ (_call (Scenario.session (Some Scenario.empty_dict)) Scenario.comics_1 None
       (Scenario.world (Response 200 (Some Scenario.ok_body))) Scenario.fresh).1
    = Return (JArr [Scenario.comic_1]).
Proof. split_and!; vm_compute; reflexivity. Qed.

(** ** Signing *)

Lemma length_le_bytes n x : length (Hashlib.le_bytes n x) = n.
Proof. unfold Hashlib.le_bytes. by rewrite length_map, length_seq. Qed.

Lemma le_bytes_range n x : Forall (λ b, (0 ≤ b < 256)%Z) (Hashlib.le_bytes n x).
Proof.
  unfold Hashlib.le_bytes. apply Forall_forall. intros b Hb.
  apply list_elem_of_fmap in Hb as (i & -> & _). by apply Z.mod_pos_bound.
Qed.

(** The digest is 16 bytes: 128 bits. *)
Lemma digest_128_bits msg :
  length (Hashlib.digest msg) = 16%nat
  ∧ Forall (λ b, (0 ≤ b < 256)%Z) (Hashlib.digest msg).
Proof.
  unfold Hashlib.digest. destruct (Hashlib.blocks _ _ _). split.
  - by rewrite !length_app, !length_le_bytes.
  - rewrite !Forall_app. split_and!; apply le_bytes_range.
Qed.

Lemma length_hex bytes : String.length (Hashlib.hex bytes) = (2 * length bytes)%nat.
Proof. induction bytes as [|b bytes IH]; simpl; [done|]. rewrite IH. lia. Qed.

Lemma create_auth_hash_digest s now_string :
  _create_auth_hash s now_string
  = Hashlib.hex (Hashlib.digest
      (Str.encode now_string ++ Str.encode (private_key s) ++ Str.encode (public_key s))).
Proof.
  unfold _create_auth_hash, Hashlib.hexdigest, Hashlib.update, Hashlib.md5. simpl.
  by rewrite <- app_assoc.
Qed.

(** The signature of the documentation of the API: timestamp [1], private
    key [abcd], public key [1234]. *)
Example documented_signature :
  _create_auth_hash (Scenario.session None) "1" = "ffd275c5130566a2916217b101f26150".
Proof. vm_compute. reflexivity. Qed.

(** C9. Once [_update_params] has run, [params["hash"]] is the MD5 digest,
    128 bits written as 32 hexadecimal digits, of the bytes of the
    timestamp string, of the private key and of the public key, in that
    order, and the timestamp string is the one under [params["ts"]]: the
    clock is read once and both come from that reading. *)
Theorem update_params_signature s env st :
  let r := _update_params s env st in
  let params := params_obj r.2 in
  ∃ ts digest,
    r.1 = Return tt
    ∧ ts = clock env (clock_reads st)
    ∧ clock_reads r.2 = S (clock_reads st)
    ∧ assoc_get "ts" params = Some (SStr ts)
    ∧ assoc_get "apikey" params = Some (SStr (public_key s))
    ∧ digest = Hashlib.digest
        (Str.encode ts ++ Str.encode (private_key s) ++ Str.encode (public_key s))
    ∧ length digest = 16%nat
    ∧ String.length (Hashlib.hex digest) = 32%nat
    ∧ assoc_get "hash" params = Some (SStr (Hashlib.hex digest)).
Proof.
  intros r params. eexists _, _.
  split_and!; [done|reflexivity|done| | |reflexivity| | |].
  - unfold params, r, _update_params, mbind, M_bind. simpl. apply assoc_get_set_eq.
  - unfold params, r, _update_params, mbind, M_bind. simpl.
    rewrite assoc_get_set_ne by done. apply assoc_get_set_eq.
  - apply digest_128_bits.
  - rewrite length_hex. by rewrite (proj1 (digest_128_bits _)).
  - unfold params, r, _update_params, mbind, M_bind. simpl.
    rewrite !assoc_get_set_ne by done. rewrite assoc_get_set_eq.
    by rewrite create_auth_hash_digest.
Qed.

(** ** Singular fetches *)

(** C7, as the code has it. For each of [comic], [series], [creator],
    [character], [story] and [event]: when the [results] of the call is an
    empty array the method raises [IndexError], which is not turned into
    [ApiError]; when it has an element, element 0 is validated into the
    record of the resource, and a validation fault is raised as
    [ApiError]. *)
Theorem singular_fetch_indexing (DomainRecord : Type)
    (validate_python : resource → json → DomainRecord + string)
    (r : resource) s _id env st items :
  (_call s [SegStr (resource_path r); SegInt _id] None env st).1 = Return (JArr items) →
  (fetch_one DomainRecord validate_python r s _id env st).1
  = match items with
    | [] => Raise IndexError
    | x :: _ =>
        match validate_python r x with
        | inl record => Return record
        | inr report => Raise (ApiError (Invalid report))
        end
    end.
Proof.
  intros Hcall. unfold fetch_one, try_except, mbind, M_bind.
  destruct (_call _ _ _ _ _) as [o st']. simpl in Hcall. subst o.
  destruct items as [|x items]; simpl; [done|].
  unfold adapter_validate. by destruct (validate_python r x).
Qed.

Lemma singular_fetch_indexing_witness :
  (_call (Scenario.session None) [SegStr (resource_path Comic); SegInt 1] None
     (Scenario.world (Response 200 (Some Scenario.ok_body))) Scenario.fresh).1
  = Return (JArr [Scenario.comic_1])
  ∧ (comic json Scenario.needs_id (Scenario.session None) 1
       (Scenario.world (Response 200 (Some Scenario.ok_body))) Scenario.fresh).1
    = Return Scenario.comic_1.
Proof.
  assert ((_call (Scenario.session None) [SegStr (resource_path Comic); SegInt 1] None
             (Scenario.world (Response 200 (Some Scenario.ok_body))) Scenario.fresh).1
          = Return (JArr [Scenario.comic_1])) as Hcall by (vm_compute; reflexivity).
  split; [exact Hcall|].
  exact (singular_fetch_indexing json Scenario.needs_id Comic (Scenario.session None) 1
           (Scenario.world (Response 200 (Some Scenario.ok_body))) Scenario.fresh
           [Scenario.comic_1] Hcall).
Defined.

(** An envelope whose [results] is the empty array: [comic(1)] raises
    [IndexError]. *)
Lemma empty_results_is_an_IndexError :
  (_call (Scenario.session None) Scenario.comics_1 None
     (Scenario.world (Response 200 (Some Scenario.empty_results_body))) Scenario.fresh).1
  = Return (JArr [])
  ∧ (comic json Scenario.needs_id (Scenario.session None) 1
       (Scenario.world (Response 200 (Some Scenario.empty_results_body))) Scenario.fresh).1
    = Raise IndexError.
Proof. split; vm_compute; reflexivity. Qed.

(** * Further properties *)

(** ** What [_call] raises *)

Lemma getitem_results_fault data e :
  Py.getitem data "results" = Raise e → e = KeyError (JStr "results") ∨ e = TypeError.
Proof.
  destruct data; simpl; try (intros [= <-]; by right).
  destruct (assoc_get "results" fields); [done|]. intros [= <-]. by left.
Qed.

(** A body that is not a JSON object stops [handle_response] at its
    first statements. *)
Lemma handle_response_non_object s K status_code data env st :
  (∀ fields, data ≠ JObj fields) →
  handle_response s K status_code data env st = (Raise (non_object_fault data), st).
Proof.
  intros Hdata. unfold handle_response, non_object_fault, mbind, M_bind, lift, raise.
  destruct data as [| | | |str|items|fields]; simpl; try done.
  - by destruct (Str.contains "message" str).
  - by destruct (existsb _ items).
  - by destruct (Hdata fields).
Qed.

Lemma non_object_fault_cases data :
  (∀ fields, data ≠ JObj fields) →
  non_object_fault data = TypeError ∨ non_object_fault data = AttributeError "get".
Proof.
  intros Hdata. unfold non_object_fault.
  destruct data as [| | | |str|items|fields]; simpl; auto.
  - destruct (Str.contains "message" str); auto.
  - destruct (existsb _ items); auto.
  - by destruct (Hdata fields).
Qed.

(** A JSON object is an error envelope or passes the classification. *)
Lemma classification_cases fields :
  (∃ message, assoc_get "message" fields = Some message)
  ∨ (assoc_get "message" fields = None
     ∧ ∃ code, assoc_get "code" fields = Some code ∧ Py.ne_int code 200 = true)
  ∨ passes_classification fields = true.
Proof.
  unfold passes_classification, assoc_mem.
  destruct (assoc_get "message" fields) as [m|]; [left; by exists m|]. simpl.
  destruct (assoc_get "code" fields) as [code|]; simpl.
  - destruct (Py.ne_int code 200) eqn:Hne; [|by right; right].
    right; left. split; [done|]. by exists code.
  - by right; right.
Qed.

Lemma handle_response_fault s K status_code data env st e :
  (handle_response s K status_code data env st).1 = Raise e → call_fault e = true.
Proof.
  destruct data as [| | | |str|items|fields].
  1-6: rewrite handle_response_non_object by done; intros [= <-];
       unfold non_object_fault; simpl; by repeat case_match.
  destruct (classification_cases fields) as [[m Hm]|[[Hm (code & Hc & Hne)]|Hpass]].
  - rewrite (handle_response_message _ _ _ _ _ _ _ Hm). by intros [= <-].
  - rewrite (handle_response_code _ _ _ _ _ _ _ Hm Hc Hne). by intros [= <-].
  - rewrite (handle_response_pass _ _ _ _ _ _ Hpass).
    destruct (status_code =? 200)%Z; simpl.
    + rewrite save_run.
      destruct (cache s) as [c|]; [destruct (truthy c), (has_store c)|]; simpl;
        try (intros Hget; by destruct (getitem_results_fault _ _ Hget) as [-> | ->]).
      by intros [= <-].
    + intros Hget. by destruct (getitem_results_fault _ _ Hget) as [-> | ->].
Qed.

Lemma call_fault_inv s endpoint params env st e :
  (_call s endpoint params env st).1 = Raise e → call_fault e = true.
Proof.
  destruct (call_cases s endpoint params env st)
    as [(Hr & _)|[(c & V & _ & _ & _ & _ & _ & Hr & _)
       |(pre & st1 & _ & _ & _ & _ & _ & Hr)]].
  - rewrite Hr. by intros [= <-].
  - rewrite Hr. intros Hget. by destruct (getitem_results_fault _ _ Hget) as [-> | ->].
  - rewrite Hr. cbv zeta.
    destruct (http _ _ _ _) as [status_code [data|]|what]; simpl.
    + apply handle_response_fault.
    + by intros [= <-].
    + by intros [= <-].
Qed.

(** ** The shape of a call *)

(** [handle_response] writes to the cache at most once: the payload of a
    body that passed the classification, received with status 200. *)
Lemma handle_response_writes s K status_code data env st :
  let r := handle_response s K status_code data env st in
  (trace r.2 = trace st ∧ cache_entries r.2 = cache_entries st)
  ∨ (∃ fields, data = JObj fields ∧ passes_classification fields = true
       ∧ status_code = 200%Z
       ∧ trace r.2 = (trace st ++ [CacheStore K (unwrapped fields)])%list
       ∧ cache_entries r.2 = <[K := unwrapped fields]> (cache_entries st)).
Proof.
  destruct data as [| | | |str|items|fields].
  1-6: left; by rewrite handle_response_non_object.
  destruct (classification_cases fields) as [[m Hm]|[[Hm (code & Hc & Hne)]|Hpass]].
  - left. by rewrite (handle_response_message _ _ _ _ _ _ _ Hm).
  - left. by rewrite (handle_response_code _ _ _ _ _ _ _ Hm Hc Hne).
  - cbv zeta. rewrite (handle_response_pass _ _ _ _ _ _ Hpass).
    destruct (Z.eqb_spec status_code 200) as [->|Hne]; [|by left].
    rewrite save_run.
    destruct (cache s) as [c|]; [destruct (truthy c), (has_store c)|]; simpl;
      try (by left).
    right. exists fields. by split_and!.
Qed.

(** A call is a lookup at most, then one request at most, then one write
    at most; the clock is read for the request and the mapping is signed
    for it. *)
Lemma call_shape s endpoint params env st :
  let p := default [] params in
  let K := cache_key s endpoint p in
  let url := request_url s endpoint in
  let sp := signed s (clock env (clock_reads st)) p in
  let r := _call s endpoint params env st in
  ∃ lookups, (lookups = [] ∨ lookups = [CacheGet K])
    ∧ ((new_events st r = lookups
        ∧ cache_entries r.2 = cache_entries st
        ∧ clock_reads r.2 = clock_reads st
        ∧ params_obj r.2 = p)
       ∨ (∃ writes,
            new_events st r = (lookups ++ [HttpGet url sp (headers s)] ++ writes)%list
            ∧ clock_reads r.2 = S (clock_reads st)
            ∧ params_obj r.2 = sp
            ∧ (cache_entries st !! K = None ∨ cache_entries st !! K = Some JNull
               ∨ cache_unused s = true)
            ∧ ((writes = [] ∧ cache_entries r.2 = cache_entries st)
               ∨ (∃ fields,
                    http env url sp (headers s) = Response 200 (Some (JObj fields))
                    ∧ passes_classification fields = true
                    ∧ writes = [CacheStore K (unwrapped fields)]
                    ∧ cache_entries r.2 = <[K := unwrapped fields]> (cache_entries st))))).
Proof.
  intros p K url sp r. unfold r. rewrite call_run. cbv zeta. rewrite lookup_run.
  fold p K url.
  set (st0 := {| params_obj := p; cache_entries := cache_entries st;
                 clock_reads := clock_reads st; trace := trace st |}).
  assert (∀ pre st1,
    params_obj st1 = p → cache_entries st1 = cache_entries st →
    clock_reads st1 = clock_reads st → trace st1 = (trace st ++ pre)%list →
    let st2 := at_request s url env st1 in
    let r' := match http env url (params_obj st2) (headers s) with
              | Failure what => (Raise (RequestException what), st2)
              | Response _ None => (Raise JSONDecodeError, st2)
              | Response status_code (Some data) =>
                  handle_response s K status_code data env st2
              end in
    ∃ writes,
      new_events st r' = (pre ++ [HttpGet url sp (headers s)] ++ writes)%list
      ∧ clock_reads r'.2 = S (clock_reads st)
      ∧ params_obj r'.2 = sp
      ∧ ((writes = [] ∧ cache_entries r'.2 = cache_entries st)
         ∨ (∃ fields,
              http env url sp (headers s) = Response 200 (Some (JObj fields))
              ∧ passes_classification fields = true
              ∧ writes = [CacheStore K (unwrapped fields)]
              ∧ cache_entries r'.2 = <[K := unwrapped fields]> (cache_entries st))))
    as Hrequest.
  { intros pre st1 Hp He Hck Htr st2 r'.
    assert (params_obj st2 = sp) as Hsp.
    { unfold st2, at_request, sp. simpl. by rewrite Hp, Hck. }
    assert (trace st2 = (trace st ++ pre ++ [HttpGet url sp (headers s)])%list) as Htr2.
    { unfold st2 at 1, at_request. simpl. fold sp. rewrite Htr, Hp, Hck.
      by rewrite <- app_assoc. }
    assert (clock_reads st2 = S (clock_reads st)) as Hck2.
    { unfold st2, at_request. simpl. by rewrite Hck. }
    assert (cache_entries st2 = cache_entries st) as He2 by done.
    unfold r'. rewrite Hsp.
    destruct (http env url sp (headers s)) as [status_code [data|]|what] eqn:Hhttp.
    - destruct (handle_response_frame s K status_code data env st2) as (Hpo & Hclk & _ & _).
      destruct (handle_response_writes s K status_code data env st2)
        as [[Htr' He']|(fields & -> & Hpass & -> & Htr' & He')].
      + exists []. split_and!; [|congruence..|left; split; [done|congruence]].
        apply new_events_app. rewrite Htr', Htr2. by simpl.
      + exists [CacheStore K (unwrapped fields)].
        split_and!; [|congruence..|right; exists fields; split_and!; [done..|congruence]].
        apply new_events_app. rewrite Htr', Htr2. by rewrite <- !app_assoc.
    - exists []. split_and!; [|done..|by left].
      apply new_events_app. etrans; [exact Htr2|by simpl].
    - exists []. split_and!; [|done..|by left].
      apply new_events_app. etrans; [exact Htr2|by simpl]. }
  destruct (cache s) as [c|] eqn:Hc;
    [destruct (truthy c) eqn:Ht; [destruct (has_get c) eqn:Hg|]|].
  - exists [CacheGet K].
    split; [by right|].
    destruct (cache_entries st !! K) as [V|] eqn:HV; simpl; rewrite HV; simpl;
      [destruct (Py.is_None V) eqn:HN; simpl|].
    + right. destruct V; try done.
      destruct (Hrequest [CacheGet K] (log (CacheGet K) st0)) as (writes & H1 & H2 & H3 & H4);
        [done..|].
      exists writes. split_and!; auto.
    + left. split_and!; try done. by apply new_events_app.
    + right.
      destruct (Hrequest [CacheGet K] (log (CacheGet K) st0)) as (writes & H1 & H2 & H3 & H4);
        [done..|].
      exists writes. split_and!; auto.
  - exists []. split; [by left|]. left. split_and!; try done.
    apply new_events_app. simpl. by rewrite app_nil_r.
  - exists []. split; [by left|]. right.
    destruct (Hrequest [] st0) as (writes & H1 & H2 & H3 & H4);
      [done..|simpl; by rewrite app_nil_r|].
    exists writes. split_and!; auto. right; right. unfold cache_unused. by rewrite Hc, Ht.
  - exists []. split; [by left|]. right.
    destruct (Hrequest [] st0) as (writes & H1 & H2 & H3 & H4);
      [done..|simpl; by rewrite app_nil_r|].
    exists writes. split_and!; auto. right; right. unfold cache_unused. by rewrite Hc.
Qed.



(** X2. A call interacts in a fixed order and at most once each: the
    lookup of its key, the request to the endpoint's URL with the signed
    parameters, the write under its key. There is no write without a
    request, and the clock is read once per request and not otherwise. *)
Theorem call_protocol s endpoint params env st :
  let K := cache_key s endpoint (default [] params) in
  let request :=
    HttpGet (request_url s endpoint)
      (signed s (clock env (clock_reads st)) (default [] params)) (headers s) in
  let r := _call s endpoint params env st in
  ∃ lookups requests writes,
    new_events st r = (lookups ++ requests ++ writes)%list
    ∧ (lookups = [] ∨ lookups = [CacheGet K])
    ∧ (requests = [] ∨ requests = [request])
    ∧ (writes = [] ∨ ∃ data, writes = [CacheStore K data])
    ∧ (requests = [] → writes = [])
    ∧ clock_reads r.2 = (clock_reads st + length requests)%nat.
Proof.
  intros K request r.
  destruct (call_shape s endpoint params env st)
    as (lookups & Hl & [(Hev & _ & Hck & _)|(writes & Hev & Hck & _ & _ & Hw)]);
    fold K r in Hev, Hck |- *.
  - exists lookups, [], []. rewrite Hev, Hck. split_and!; auto.
    by rewrite app_nil_r.
  - exists lookups, [request], writes. rewrite Hev, Hck. split_and!; auto.
    + destruct Hw as [[-> _]|(fields & _ & _ & -> & _)]; [by left|right; by eexists].
    + done.
    + simpl. lia.
Qed.

(** X3. A call changes the cache in one way only: the payload of a
    response received with status 200 whose body passed the
    classification is put under the call's key. Every other entry is left
    as it was. *)
Theorem cache_written_only_on_success s endpoint params env st :
  let K := cache_key s endpoint (default [] params) in
  let r := _call s endpoint params env st in
  (cache_entries r.2 = cache_entries st
   ∨ ∃ url p hdrs fields,
       HttpGet url p hdrs ∈ new_events st r
       ∧ http env url p hdrs = Response 200 (Some (JObj fields))
       ∧ passes_classification fields = true
       ∧ CacheStore K (unwrapped fields) ∈ new_events st r
       ∧ cache_entries r.2 = <[K := unwrapped fields]> (cache_entries st))
  ∧ ∀ k, k ≠ K → cache_entries r.2 !! k = cache_entries st !! k.
Proof.
  intros K r.
  destruct (call_shape s endpoint params env st)
    as (lookups & Hl & [(Hev & He & _)|(writes & Hev & _ & _ & _ & Hw)]);
    fold K r in Hev |- *.
  - fold r in He. split; [by left|]. intros k _. by rewrite He.
  - destruct Hw as [[-> He]|(fields & Hhttp & Hpass & -> & He)]; fold r in He.
    + split; [by left|]. intros k _. by rewrite He.
    + split.
      * right. eexists _, _, _, fields. rewrite Hev.
        split_and!; [|exact Hhttp|done| |done].
        -- rewrite !elem_of_app. right; left. by apply list_elem_of_singleton.
        -- rewrite !elem_of_app. right; right. by apply list_elem_of_singleton.
      * intros k Hk. rewrite He. by apply lookup_insert_ne.
Qed.

(** ** The way through the network *)

(** With a collaborator in use, a request is preceded by the lookup. *)
Lemma call_request_in_use s c endpoint params env st url p hdrs :
  let K := cache_key s endpoint (default [] params) in
  let r := _call s endpoint params env st in
  cache s = Some c → truthy c = true →
  HttpGet url p hdrs ∈ new_events st r →
  has_get c = true
  ∧ ∃ st2, params_obj st2 = p
      ∧ cache_entries st2 = cache_entries st
      ∧ trace st2 = (trace st ++ [CacheGet K; HttpGet url p hdrs])%list
      ∧ r = match http env url p hdrs with
            | Failure what => (Raise (RequestException what), st2)
            | Response _ None => (Raise JSONDecodeError, st2)
            | Response status_code (Some data) =>
                handle_response s K status_code data env st2
            end.
Proof.
  intros K r Hc Ht Hin.
  destruct (call_request_inv s endpoint params env st url p hdrs Hin)
    as (Hurl & Hp & Hh & _).
  set (st0 := {| params_obj := default [] params; cache_entries := cache_entries st;
                 clock_reads := clock_reads st; trace := trace st |}).
  assert (r = match (if has_get c
                     then (Return (default JNull (cache_entries st !! K)),
                           log (CacheGet K) st0)
                     else (Raise (CacheError (AttributeError "get")), st0)) with
              | (Raise e, st1) => (Raise e, st1)
              | (Return cached, st1) =>
                  if negb (Py.is_None cached) then (Py.getitem cached "results", st1)
                  else
                    let st2 := at_request s (request_url s endpoint) env st1 in
                    match http env (request_url s endpoint) (params_obj st2) (headers s) with
                    | Failure what => (Raise (RequestException what), st2)
                    | Response _ None => (Raise JSONDecodeError, st2)
                    | Response status_code (Some data) =>
                        handle_response s K status_code data env st2
                    end
              end) as Hr.
  { unfold r. rewrite call_run. cbv zeta. by rewrite lookup_run, Hc, Ht. }
  destruct (has_get c).
  2: { rewrite (new_events_app st r []) in Hin; [by inv Hin|].
       rewrite Hr. simpl. by rewrite app_nil_r. }
  split; [done|].
  destruct (negb (Py.is_None (default JNull (cache_entries st !! K)))).
  { rewrite (new_events_app st r [CacheGet K]) in Hin by (by rewrite Hr).
    by apply list_elem_of_singleton in Hin. }
  exists (at_request s (request_url s endpoint) env (log (CacheGet K) st0)).
  cbv zeta in Hr. subst url p hdrs.
  split_and!; [done..| |done].
  unfold at_request, log. simpl. by rewrite <- app_assoc.
Qed.

(** X4. When the request of a call with a working cache is answered with
    status 200 by a body that passes the classification, [_call] returns
    the [results] of the payload, what is under [data] when the body has
    it, and leaves that payload, not the envelope, in the cache under the
    call's key. *)
Theorem call_success_caches_payload s c endpoint params env st url p hdrs fields results :
  let K := cache_key s endpoint (default [] params) in
  let r := _call s endpoint params env st in
  cache s = Some c → truthy c = true → has_store c = true →
  HttpGet url p hdrs ∈ new_events st r →
  http env url p hdrs = Response 200 (Some (JObj fields)) →
  passes_classification fields = true →
  Py.getitem (unwrapped fields) "results" = Return results →
  r.1 = Return results
  ∧ cache_entries r.2 = <[K := unwrapped fields]> (cache_entries st)
  ∧ new_events st r
    = [CacheGet K; HttpGet url p hdrs; CacheStore K (unwrapped fields)].
Proof.
  intros K r Hc Ht Hs Hin Hhttp Hpass Hres.
  destruct (call_request_in_use s c endpoint params env st url p hdrs Hc Ht Hin)
    as (_ & st2 & _ & He & Htr & Hr).
  fold K r in Htr, Hr. rewrite Hhttp, (handle_response_pass _ _ _ _ _ _ Hpass) in Hr.
  simpl in Hr. rewrite save_run, Hc, Ht, Hs, Hres in Hr.
  rewrite Hr. simpl. split_and!; [done|by rewrite He|].
  apply new_events_app. simpl. rewrite Htr. by rewrite <- app_assoc.
Qed.

Lemma call_success_caches_payload_witness :
  HttpGet Scenario.comics_1_url Scenario.signed_params Scenario.user_agent
    ∈ new_events Scenario.fresh
        (_call (Scenario.session (Some Scenario.sqlite_cache)) Scenario.comics_1 None
           (Scenario.world (Response 200 (Some Scenario.ok_body))) Scenario.fresh)
  ∧ http (Scenario.world (Response 200 (Some Scenario.ok_body)))
      Scenario.comics_1_url Scenario.signed_params Scenario.user_agent
    = Response 200 (Some Scenario.ok_body)
  ∧ (_call (Scenario.session (Some Scenario.sqlite_cache)) Scenario.comics_1 None
       (Scenario.world (Response 200 (Some Scenario.ok_body))) Scenario.fresh).1
    = Return (JArr [Scenario.comic_1])
  ∧ cache_entries
      (_call (Scenario.session (Some Scenario.sqlite_cache)) Scenario.comics_1 None
         (Scenario.world (Response 200 (Some Scenario.ok_body))) Scenario.fresh).2
    = <[cache_key (Scenario.session (Some Scenario.sqlite_cache)) Scenario.comics_1 []
        := JObj [("count", JInt 1); ("results", JArr [Scenario.comic_1])]]>
        (cache_entries Scenario.fresh).
Proof.
  assert (HttpGet Scenario.comics_1_url Scenario.signed_params Scenario.user_agent
            ∈ new_events Scenario.fresh
                (_call (Scenario.session (Some Scenario.sqlite_cache)) Scenario.comics_1 None
                   (Scenario.world (Response 200 (Some Scenario.ok_body)))
                   Scenario.fresh)) as Hsent.
  { vm_compute. repeat constructor. }
  pose proof (call_success_caches_payload
                (Scenario.session (Some Scenario.sqlite_cache)) Scenario.sqlite_cache
                Scenario.comics_1 None
                (Scenario.world (Response 200 (Some Scenario.ok_body))) Scenario.fresh
                Scenario.comics_1_url Scenario.signed_params Scenario.user_agent
                _ (JArr [Scenario.comic_1])
                eq_refl eq_refl eq_refl Hsent eq_refl eq_refl eq_refl) as (H1 & H2 & _).
  split_and!; [exact Hsent|reflexivity|exact H1|exact H2].
Defined.

(** X5. Every request a call sends goes to the endpoint's URL with the
    session's headers and is authenticated: [apikey] is the public key,
    [hash] is the signature for the [ts] it carries, whatever the caller
    had put under these three names; every other parameter of the caller
    is sent as it was given. *)
Theorem requests_are_signed s endpoint params env st url p hdrs :
  HttpGet url p hdrs ∈ new_events st (_call s endpoint params env st) →
  url = request_url s endpoint
  ∧ hdrs = headers s
  ∧ assoc_get "apikey" p = Some (SStr (public_key s))
  ∧ (∃ ts, assoc_get "ts" p = Some (SStr ts)
           ∧ assoc_get "hash" p = Some (SStr (_create_auth_hash s ts)))
  ∧ ∀ k, is_auth_key k = false → assoc_get k p = assoc_get k (default [] params).
Proof.
  intros Hin.
  destruct (call_request_inv s endpoint params env st url p hdrs Hin)
    as (Hurl & Hp & Hh & _).
  split_and!; [done..| | |]; rewrite Hp; unfold signed.
  - rewrite assoc_get_set_ne by done. apply assoc_get_set_eq.
  - eexists. split; [apply assoc_get_set_eq|].
    rewrite !assoc_get_set_ne by done. apply assoc_get_set_eq.
  - intros k Hk. unfold is_auth_key in Hk.
    apply orb_false_iff in Hk as [[Hhash Hapikey]%orb_false_iff Hts].
    apply String.eqb_neq in Hhash, Hapikey, Hts.
    by rewrite !assoc_get_set_ne.
Qed.

Lemma requests_are_signed_witness :
  HttpGet "http://gateway.marvel.com:80/v1/public/comics"
    (signed (Scenario.session None) Scenario.now
       [("ts", SStr "yesterday"); ("limit", SInt 5)])
    Scenario.user_agent
    ∈ new_events Scenario.fresh
        (_call (Scenario.session None) [SegStr "comics"]
           (Some [("ts", SStr "yesterday"); ("limit", SInt 5)])
           (Scenario.world (Failure "unreachable")) Scenario.fresh)
  ∧ assoc_get "ts"
      (signed (Scenario.session None) Scenario.now
         [("ts", SStr "yesterday"); ("limit", SInt 5)])
    = Some (SStr Scenario.now)
  ∧ assoc_get "apikey"
      (signed (Scenario.session None) Scenario.now
         [("ts", SStr "yesterday"); ("limit", SInt 5)])
    = Some (SStr "1234").
Proof.
  assert (HttpGet "http://gateway.marvel.com:80/v1/public/comics"
            (signed (Scenario.session None) Scenario.now
               [("ts", SStr "yesterday"); ("limit", SInt 5)])
            Scenario.user_agent
            ∈ new_events Scenario.fresh
                (_call (Scenario.session None) [SegStr "comics"]
                   (Some [("ts", SStr "yesterday"); ("limit", SInt 5)])
                   (Scenario.world (Failure "unreachable")) Scenario.fresh)) as Hsent.
  { vm_compute. repeat constructor. }
  split_and!; [exact Hsent|reflexivity|].
  exact (proj1 (proj2 (proj2 (requests_are_signed _ _ _ _ _ _ _ _ Hsent)))).
Defined.

Lemma format_api_url (x : string) :
  Str.format "http://gateway.marvel.com:80/v1/public/{}" x
  = "http://gateway.marvel.com:80/v1/public/" +:+ x.
Proof.
  assert (∀ y : string, y +:+ "" = y) as Hnil.
  { induction y as [|c y IH]; [done|]. by rewrite <- IH at 2. }
  simpl. by rewrite Hnil.
Qed.

(** X6. A session made by [__init__] sends its requests to
    [http://gateway.marvel.com:80/v1/public/] followed by the segments of
    the endpoint joined by [/], under the one header [User-Agent:
    esak/<version> (<system>; <release>)]; its keys are those given. *)
Theorem init_session_requests version system release public private cache
    endpoint params env st url p hdrs :
  let s := __init__ version system release public private cache in
  HttpGet url p hdrs ∈ new_events st (_call s endpoint params env st) →
  url = "http://gateway.marvel.com:80/v1/public/"
        +:+ Str.join "/" (map str_of_segment endpoint)
  ∧ hdrs = [("User-Agent",
             "esak/" +:+ version +:+ " (" +:+ system +:+ "; " +:+ release +:+ ")")]
  ∧ assoc_get "apikey" p = Some (SStr public).
Proof.
  intros s Hin.
  destruct (call_request_inv s endpoint params env st url p hdrs Hin)
    as (Hurl & Hp & Hh & _).
  split_and!.
  - rewrite Hurl. unfold request_url. apply format_api_url.
  - by rewrite Hh.
  - rewrite Hp. unfold signed. rewrite assoc_get_set_ne by done. apply assoc_get_set_eq.
Qed.

Lemma init_session_requests_witness :
  HttpGet Scenario.comics_1_url Scenario.signed_params Scenario.user_agent
    ∈ new_events Scenario.fresh
        (_call (__init__ "2.3.1" "Linux" "6.8.0" "1234" "abcd" None) Scenario.comics_1 None
           (Scenario.world (Failure "unreachable")) Scenario.fresh)
  ∧ Scenario.user_agent = [("User-Agent", "esak/2.3.1 (Linux; 6.8.0)")].
Proof.
  assert (HttpGet Scenario.comics_1_url Scenario.signed_params Scenario.user_agent
            ∈ new_events Scenario.fresh
                (_call (__init__ "2.3.1" "Linux" "6.8.0" "1234" "abcd" None)
                   Scenario.comics_1 None
                   (Scenario.world (Failure "unreachable")) Scenario.fresh)) as Hsent.
  { vm_compute. repeat constructor. }
  split; [exact Hsent|].
  exact (proj1 (proj2 (init_session_requests "2.3.1" "Linux" "6.8.0" "1234" "abcd" None
                         Scenario.comics_1 None (Scenario.world (Failure "unreachable"))
                         Scenario.fresh _ _ _ Hsent))).
Defined.

(** X7. A response whose body is JSON but not an object is not turned
    into an [ApiError]: [_call] raises [TypeError] when the value is no
    container or when [in] finds [message] in it, and otherwise the
    [AttributeError] of [data.get], which is not a [CacheError]. Nothing
    is cached. *)
Theorem non_object_body_fault s endpoint params env st url p hdrs status_code data :
  let r := _call s endpoint params env st in
  HttpGet url p hdrs ∈ new_events st r →
  http env url p hdrs = Response status_code (Some data) →
  (∀ fields, data ≠ JObj fields) →
  r.1 = Raise (non_object_fault data)
  ∧ (non_object_fault data = TypeError ∨ non_object_fault data = AttributeError "get")
  ∧ cache_entries r.2 = cache_entries st.
Proof.
  intros r Hin Hhttp Hdata.
  destruct (call_request_inv s endpoint params env st url p hdrs Hin)
    as (_ & _ & _ & pre & st2 & _ & He & _ & _ & Hr).
  fold r in Hr. rewrite Hhttp, handle_response_non_object in Hr by done.
  rewrite Hr. split_and!; [done| |done]. by apply non_object_fault_cases.
Qed.

Lemma non_object_body_fault_witness :
  HttpGet Scenario.comics_1_url Scenario.signed_params Scenario.user_agent
    ∈ new_events Scenario.fresh
        (_call (Scenario.session (Some Scenario.sqlite_cache)) Scenario.comics_1 None
           (Scenario.world (Response 200 (Some (JArr [Scenario.comic_1])))) Scenario.fresh)
  ∧ (_call (Scenario.session (Some Scenario.sqlite_cache)) Scenario.comics_1 None
       (Scenario.world (Response 200 (Some (JArr [Scenario.comic_1])))) Scenario.fresh).1
    = Raise (AttributeError "get").
Proof.
  assert (HttpGet Scenario.comics_1_url Scenario.signed_params Scenario.user_agent
            ∈ new_events Scenario.fresh
                (_call (Scenario.session (Some Scenario.sqlite_cache)) Scenario.comics_1 None
                   (Scenario.world (Response 200 (Some (JArr [Scenario.comic_1]))))
                   Scenario.fresh)) as Hsent.
  { vm_compute. repeat constructor. }
  split; [exact Hsent|].
  exact (proj1 (non_object_body_fault
                  (Scenario.session (Some Scenario.sqlite_cache)) Scenario.comics_1 None
                  (Scenario.world (Response 200 (Some (JArr [Scenario.comic_1]))))
                  Scenario.fresh _ _ _ 200 (JArr [Scenario.comic_1]) Hsent eq_refl
                  ltac:(done))).
Defined.

(** X8. When the transport fails, or answers with a body that is not
    JSON, its exception leaves [_call] as it is; nothing is cached, and
    the caller's mapping stays signed: the mutation is not undone. *)
Theorem transport_failure_propagates s endpoint (params : dict) env st url p hdrs :
  let r := _call s endpoint (Some params) env st in
  HttpGet url p hdrs ∈ new_events st r →
  (∀ what, http env url p hdrs = Failure what → r.1 = Raise (RequestException what))
  ∧ (∀ status_code, http env url p hdrs = Response status_code None →
       r.1 = Raise JSONDecodeError)
  ∧ ((∃ what, http env url p hdrs = Failure what)
     ∨ (∃ status_code, http env url p hdrs = Response status_code None) →
     cache_entries r.2 = cache_entries st
     ∧ params_obj r.2 = signed s (clock env (clock_reads st)) params).
Proof.
  intros r Hin.
  destruct (call_request_inv s endpoint (Some params) env st url p hdrs Hin)
    as (_ & Hp & _ & pre & st2 & Hpo & He & _ & _ & Hr).
  fold r in Hr. split_and!.
  - intros what Hhttp. by rewrite Hr, Hhttp.
  - intros status_code Hhttp. by rewrite Hr, Hhttp.
  - intros [[what Hhttp]|[status_code Hhttp]]; rewrite Hr, Hhttp; simpl;
      by rewrite He, Hpo, Hp.
Qed.

Lemma transport_failure_propagates_witness :
  HttpGet "http://gateway.marvel.com:80/v1/public/comics"
    (signed (Scenario.session None) Scenario.now Scenario.page) Scenario.user_agent
    ∈ new_events Scenario.fresh
        (_call (Scenario.session None) [SegStr "comics"] (Some Scenario.page)
           (Scenario.world (Failure "unreachable")) Scenario.fresh)
  ∧ (_call (Scenario.session None) [SegStr "comics"] (Some Scenario.page)
       (Scenario.world (Failure "unreachable")) Scenario.fresh).1
    = Raise (RequestException "unreachable").
Proof.
  assert (HttpGet "http://gateway.marvel.com:80/v1/public/comics"
            (signed (Scenario.session None) Scenario.now Scenario.page) Scenario.user_agent
            ∈ new_events Scenario.fresh
                (_call (Scenario.session None) [SegStr "comics"] (Some Scenario.page)
                   (Scenario.world (Failure "unreachable")) Scenario.fresh)) as Hsent.
  { vm_compute. repeat constructor. }
  split; [exact Hsent|].
  exact (proj1 (transport_failure_propagates _ _ _ _ _ _ _ _ Hsent) "unreachable" eq_refl).
Defined.

(** ** The mapping under [_update_params] *)

Section AssocSetFacts.
Context {V : Type}.
Implicit Types (d : list (string * V)).

Lemma assoc_get_None k d : assoc_get k d = None ↔ k ∉ d.*1.
Proof.
  induction d as [|[k' v'] d IH]; simpl.
  - split; [intros _; apply not_elem_of_nil|done].
  - rewrite not_elem_of_cons. destruct (String.eqb_spec k k') as [->|Hne].
    + split; [done|]. by intros [? _].
    + rewrite IH. split; [by intros ?|by intros [_ ?]].
Qed.

Lemma assoc_mem_keys k d : assoc_mem k d = true ↔ k ∈ d.*1.
Proof.
  unfold assoc_mem. destruct (assoc_get k d) eqn:Hget.
  - split; [intros _|done]. destruct (decide (k ∈ d.*1)) as [|Hn]; [done|].
    apply assoc_get_None in Hn. congruence.
  - apply assoc_get_None in Hget. split; [done|]. intros ?. done.
Qed.

(** Writing under a name keeps the names in their order and puts a new
    name last. *)
Lemma assoc_set_keys k v d :
  (assoc_set k v d).*1 = (d.*1 ++ (if assoc_mem k d then [] else [k]))%list.
Proof.
  unfold assoc_mem. induction d as [|[k' v'] d IH]; csimpl; [done|].
  destruct (String.eqb_spec k k') as [->|Hne]; csimpl.
  - by rewrite app_nil_r.
  - rewrite IH. by destruct (assoc_get k d).
Qed.

Lemma assoc_set_NoDup k v d : NoDup d.*1 → NoDup (assoc_set k v d).*1.
Proof.
  intros Hnd. rewrite assoc_set_keys. destruct (assoc_mem k d) eqn:Hmem.
  - by rewrite app_nil_r.
  - apply NoDup_app. split_and!; [done| |apply NoDup_singleton].
    intros x Hx ->%list_elem_of_singleton.
    apply assoc_mem_keys in Hx. congruence.
Qed.

Lemma assoc_set_set k v v' d : assoc_set k v' (assoc_set k v d) = assoc_set k v' d.
Proof.
  induction d as [|[k' w] d IH]; simpl.
  - by rewrite String.eqb_refl.
  - destruct (String.eqb k k') eqn:E; simpl; rewrite ?String.eqb_refl, ?E; [done|].
    by rewrite IH.
Qed.

(** A write in place commutes with a write under another name. *)
Lemma assoc_set_comm k k' v v' d :
  k ≠ k' → assoc_mem k d = true →
  assoc_set k v (assoc_set k' v' d) = assoc_set k' v' (assoc_set k v d).
Proof.
  intros Hne. unfold assoc_mem. induction d as [|[k'' w] d IH]; simpl; [done|].
  destruct (String.eqb_spec k k'') as [<-|Hk]; simpl.
  - intros _. destruct (String.eqb_spec k' k) as [->|_]; [done|]. simpl.
    by rewrite String.eqb_refl.
  - intros Hmem. destruct (String.eqb_spec k' k'') as [<-|Hk']; simpl.
    + destruct (String.eqb_spec k k'); [done|]. done.
    + destruct (String.eqb_spec k k''); [done|]. by rewrite IH.
Qed.

Lemma assoc_mem_set k k' v d :
  assoc_mem k (assoc_set k' v d) = (String.eqb k k' || assoc_mem k d).
Proof.
  unfold assoc_mem. destruct (String.eqb_spec k k') as [->|Hne]; simpl.
  - by rewrite assoc_get_set_eq.
  - by rewrite assoc_get_set_ne.
Qed.

End AssocSetFacts.

Lemma update_params_run s env st :
  _update_params s env st
  = (Return tt,
     {| params_obj := signed s (clock env (clock_reads st)) (params_obj st);
        cache_entries := cache_entries st;
        clock_reads := S (clock_reads st);
        trace := trace st |}).
Proof. reflexivity. Qed.

(** X9. [_update_params] keeps the mapping a well-formed dict: the names
    stay pairwise distinct, the caller's entries keep their order, those
    of [hash], [apikey] and [ts] that were missing are appended in that
    order, and the value under every other name is untouched. It touches
    neither the cache nor the trace. *)
Theorem update_params_keeps_mapping s env st :
  let r := _update_params s env st in
  let before := params_obj st in
  let after := params_obj r.2 in
  after.*1 = (before.*1
              ++ List.filter (fun k => negb (assoc_mem k before)) ["hash"; "apikey"; "ts"])%list
  ∧ (NoDup before.*1 → NoDup after.*1)
  ∧ (∀ k, is_auth_key k = false → assoc_get k after = assoc_get k before)
  ∧ cache_entries r.2 = cache_entries st
  ∧ trace r.2 = trace st.
Proof.
  intros r before after. unfold after, r. rewrite update_params_run. simpl.
  fold before. unfold signed. split_and!; [| | |done..].
  - rewrite !assoc_set_keys, !assoc_mem_set. simpl.
    destruct (assoc_mem "hash" before), (assoc_mem "apikey" before),
      (assoc_mem "ts" before); simpl; by rewrite <- ?app_assoc, ?app_nil_r.
  - intros Hnd. by do 3 apply assoc_set_NoDup.
  - intros k Hk. unfold is_auth_key in Hk.
    apply orb_false_iff in Hk as [[Hhash Hapikey]%orb_false_iff Hts].
    apply String.eqb_neq in Hhash, Hapikey, Hts.
    by rewrite !assoc_get_set_ne.
Qed.

Lemma update_params_keeps_mapping_witness :
  NoDup [("ts", SStr "yesterday"); ("limit", SInt 5)].*1
  ∧ (params_obj
       (_update_params (Scenario.session None) (Scenario.world (Failure "unreachable"))
          {| params_obj := [("ts", SStr "yesterday"); ("limit", SInt 5)];
             cache_entries := ∅; clock_reads := 0; trace := [] |}).2).*1
    = ["ts"; "limit"; "hash"; "apikey"].
Proof.
  split.
  - apply NoDup_cons. split; [|apply NoDup_singleton].
    intros Hin. apply list_elem_of_singleton in Hin. discriminate Hin.
  - exact (proj1 (update_params_keeps_mapping (Scenario.session None)
                    (Scenario.world (Failure "unreachable"))
                    {| params_obj := [("ts", SStr "yesterday"); ("limit", SInt 5)];
                       cache_entries := ∅; clock_reads := 0; trace := [] |})).
Defined.

Lemma signed_keys s (t : string) (params : dict) :
  (signed s t params).*1
  = (params.*1
     ++ List.filter (fun k => negb (assoc_mem k params)) ["hash"; "apikey"; "ts"])%list.
Proof.
  unfold signed. rewrite !assoc_set_keys, !assoc_mem_set. simpl.
  destruct (assoc_mem "hash" params), (assoc_mem "apikey" params),
    (assoc_mem "ts" params); simpl; by rewrite <- ?app_assoc, ?app_nil_r.
Qed.

Lemma signed_signed s (t1 t2 : string) (params : dict) :
  signed s t2 (signed s t1 params) = signed s t2 params.
Proof.
  unfold signed.
  set (h1 := SStr (_create_auth_hash s t1)). set (h2 := SStr (_create_auth_hash s t2)).
  set (a := SStr (public_key s)).
  rewrite (assoc_set_comm "hash" "ts" h2 (SStr t1)) by (done || by rewrite !assoc_mem_set).
  rewrite (assoc_set_comm "hash" "apikey" h2 a) by (done || by rewrite !assoc_mem_set).
  rewrite assoc_set_set.
  rewrite (assoc_set_comm "apikey" "ts" a (SStr t1)) by (done || by rewrite !assoc_mem_set).
  by rewrite !assoc_set_set.
Qed.

(** X10. [_update_params] run on a mapping it has already signed
    replaces the three values where they are: the mapping is what signing
    the original one at the later time gives, with the same names in the
    same order. A mapping that is signed again does not grow. *)
Theorem signing_again_replaces s env1 env2 st :
  let once := _update_params s env1 st in
  let again := _update_params s env2 once.2 in
  params_obj again.2 = signed s (clock env2 (S (clock_reads st))) (params_obj st)
  ∧ (params_obj again.2).*1 = (params_obj once.2).*1.
Proof.
  intros once again. unfold again, once. rewrite !update_params_run. simpl.
  rewrite signed_signed. split; [done|]. by rewrite !signed_keys.
Qed.

(** ** Keys that do not collide *)

Lemma string_app_cons c (a b : string) : String c a +:+ b = String c (a +:+ b).
Proof. reflexivity. Qed.

Lemma string_app_assoc (a b c : string) : (a +:+ b) +:+ c = a +:+ (b +:+ c).
Proof. induction a as [|x a IH]; [done|]. by rewrite !string_app_cons, IH. Qed.

(** One escaped byte reads back as the byte, and holds neither [&] nor
    [=]. *)
Lemma unquote_quote_byte c (t : string) :
  UrlDecode.unquote_plus (Urllib.quote_byte c +:+ t) = String c (UrlDecode.unquote_plus t).
Proof. destruct c as [[] [] [] [] [] [] [] []]; reflexivity. Qed.

Lemma quote_byte_occurs c (t : string) :
  UrlDecode.occurs "&" (Urllib.quote_byte c +:+ t) = UrlDecode.occurs "&" t
  ∧ UrlDecode.occurs "=" (Urllib.quote_byte c +:+ t) = UrlDecode.occurs "=" t.
Proof. destruct c as [[] [] [] [] [] [] [] []]; split; reflexivity. Qed.

Lemma unquote_quote_plus (s t : string) :
  UrlDecode.unquote_plus (Urllib.quote_plus s +:+ t) = s +:+ UrlDecode.unquote_plus t.
Proof.
  induction s as [|c s IH]; [done|]. simpl.
  by rewrite string_app_assoc, unquote_quote_byte, IH.
Qed.

Lemma quote_plus_occurs (s t : string) :
  UrlDecode.occurs "&" (Urllib.quote_plus s +:+ t) = UrlDecode.occurs "&" t
  ∧ UrlDecode.occurs "=" (Urllib.quote_plus s +:+ t) = UrlDecode.occurs "=" t.
Proof.
  induction s as [|c s [IH1 IH2]]; [done|]. simpl.
  rewrite string_app_assoc.
  destruct (quote_byte_occurs c (Urllib.quote_plus s +:+ t)) as [-> ->]. done.
Qed.

Lemma split_on_cons sep (s : string) : ∃ piece pieces, UrlDecode.split_on sep s = piece :: pieces.
Proof.
  induction s as [|c s (piece & pieces & IH)]; simpl; [by eexists _, _|].
  destruct (Ascii.eqb c sep); [by eexists _, _|]. rewrite IH. by eexists _, _.
Qed.

(** Splitting finds the first separator. *)
Lemma split_on_app sep (a b : string) :
  UrlDecode.occurs sep a = false →
  UrlDecode.split_on sep (a +:+ String sep b) = a :: UrlDecode.split_on sep b.
Proof.
  induction a as [|c a IH]; simpl.
  - intros _. change ("" +:+ String sep b) with (String sep b). simpl.
    by rewrite Ascii.eqb_refl.
  - intros [Hc Ha]%orb_false_iff. by rewrite Hc, IH.
Qed.

Lemma split_on_none sep (a : string) :
  UrlDecode.occurs sep a = false → UrlDecode.split_on sep a = [a].
Proof.
  induction a as [|c a IH]; simpl; [done|].
  intros [Hc Ha]%orb_false_iff. by rewrite Hc, IH.
Qed.

Lemma string_app_nil_r (s : string) : s +:+ "" = s.
Proof. induction s as [|c s IH]; [done|]. by rewrite string_app_cons, IH. Qed.

Lemma parse_encode_pair kv : UrlDecode.parse_pair (UrlDecode.encode_pair kv) = kv.
Proof.
  destruct kv as [k v]. unfold UrlDecode.parse_pair, UrlDecode.encode_pair. simpl.
  assert (UrlDecode.occurs "=" (Urllib.quote_plus k) = false) as Hk.
  { rewrite <- (string_app_nil_r (Urllib.quote_plus k)). by rewrite (proj2 (quote_plus_occurs k "")). }
  assert (UrlDecode.occurs "=" (Urllib.quote_plus v) = false) as Hv.
  { rewrite <- (string_app_nil_r (Urllib.quote_plus v)). by rewrite (proj2 (quote_plus_occurs v "")). }
  change (Urllib.quote_plus k +:+ "=" +:+ Urllib.quote_plus v)
    with (Urllib.quote_plus k +:+ String "=" (Urllib.quote_plus v)).
  rewrite (split_on_app _ _ _ Hk), (split_on_none _ _ Hv).
  rewrite <- (string_app_nil_r (Urllib.quote_plus k)), <- (string_app_nil_r (Urllib.quote_plus v)).
  rewrite !unquote_quote_plus. simpl. by rewrite !string_app_nil_r.
Qed.

Lemma encode_pair_no_amp kv (t : string) :
  UrlDecode.occurs "&" (UrlDecode.encode_pair kv +:+ t) = UrlDecode.occurs "&" t.
Proof.
  unfold UrlDecode.encode_pair. rewrite !string_app_assoc.
  rewrite (proj1 (quote_plus_occurs _ _)). rewrite string_app_cons. simpl.
  change ("" +:+ ?x) with x. by rewrite (proj1 (quote_plus_occurs _ _)).
Qed.

Lemma split_join_pairs kv kvs :
  UrlDecode.split_on "&" (Str.join "&" (map UrlDecode.encode_pair (kv :: kvs)))
  = map UrlDecode.encode_pair (kv :: kvs).
Proof.
  revert kv. induction kvs as [|kv' kvs IH]; intros kv.
  - simpl. apply split_on_none.
    rewrite <- (string_app_nil_r (UrlDecode.encode_pair kv)). by rewrite encode_pair_no_amp.
  - change (Str.join "&" (map UrlDecode.encode_pair (kv :: kv' :: kvs)))
      with (UrlDecode.encode_pair kv
            +:+ String "&" (Str.join "&" (map UrlDecode.encode_pair (kv' :: kvs)))).
    rewrite split_on_app, IH; [done|].
    rewrite <- (string_app_nil_r (UrlDecode.encode_pair kv)). by rewrite encode_pair_no_amp.
Qed.

Lemma urlencode_pairs (query : dict) :
  Urllib.urlencode query = Str.join "&" (map UrlDecode.encode_pair (query_of query)).
Proof. unfold Urllib.urlencode, query_of. by rewrite map_map. Qed.

(** The query string of a mapping reads back as its names and the [str]
    of its values, in the order they were written. *)
Lemma parse_urlencode (query : dict) :
  UrlDecode.parse_qsl (Urllib.urlencode query) = query_of query.
Proof.
  rewrite urlencode_pairs. destruct (query_of query) as [|kv kvs] eqn:Hq; [done|].
  unfold UrlDecode.parse_qsl.
  assert (∃ c rest, Str.join "&" (map UrlDecode.encode_pair (kv :: kvs)) = String c rest)
    as (c & rest & Hjoin).
  { destruct (Str.join "&" (map UrlDecode.encode_pair (kv :: kvs))) as [|c rest] eqn:E;
      [|by eexists _, _].
    pose proof (split_join_pairs kv kvs) as Hsplit. rewrite E in Hsplit. simpl in Hsplit.
    injection Hsplit as Hhead _. exfalso.
    pose proof (parse_encode_pair kv) as Hparse. rewrite <- Hhead in Hparse.
    destruct kv as [k v]. unfold UrlDecode.encode_pair in Hhead. simpl in Hhead.
    destruct (Urllib.quote_plus k); discriminate Hhead. }
  rewrite Hjoin, <- Hjoin, split_join_pairs, map_map.
  rewrite <- (map_id (kv :: kvs)) at 2. apply map_ext. intros. apply parse_encode_pair.
Qed.

Lemma query_of_keys (params : dict) : (query_of params).*1 = params.*1.
Proof. unfold query_of. induction params as [|[k v] params IH]; csimpl; by f_equal. Qed.

Lemma query_of_insert (x : string * scalar) (params : dict) :
  query_of (insert_by_key x params)
  = insert_by_key (x.1, str_of_scalar x.2) (query_of params).
Proof.
  induction params as [|y params IH]; simpl; [done|].
  destruct (String.leb x.1 y.1); simpl; [done|]. by rewrite IH.
Qed.

Lemma query_of_sorted (params : dict) :
  query_of (sorted_by_key params) = sorted_by_key (query_of params).
Proof.
  induction params as [|x params IH]; simpl; [done|].
  by rewrite query_of_insert, IH.
Qed.

(** The part of the key that comes from the parameters, read back. *)
Lemma parse_cached_params (params : dict) :
  NoDup params.*1 →
  _create_cached_params params
  = match params with
    | [] => ""
    | _ :: _ => "?" +:+ Urllib.urlencode (sorted_by_key params)
    end
  ∧ (params ≠ [] →
     ∃ tail, _create_cached_params params = String "?" tail
             ∧ UrlDecode.parse_qsl tail = sorted_by_key (query_of params)).
Proof.
  intros Hnd. split.
  - destruct params as [|x params]; [done|]. by rewrite create_cached_params_nonempty.
  - intros Hne. exists (Urllib.urlencode (sorted_by_key params)).
    rewrite create_cached_params_nonempty by done. split; [done|].
    by rewrite parse_urlencode, query_of_sorted.
Qed.

(** Two mappings give the same key on an endpoint exactly when they hold
    the same names with the same [str] of the values. *)
Lemma cached_params_eq_iff (P1 P2 : dict) :
  NoDup P1.*1 → NoDup P2.*1 →
  _create_cached_params P1 = _create_cached_params P2 ↔ query_of P1 ≡ₚ query_of P2.
Proof.
  intros Hnd1 Hnd2. split.
  - intros Heq.
    destruct P1 as [|x1 P1], P2 as [|x2 P2]; [done| | |].
    + destruct (proj2 (parse_cached_params (x2 :: P2) Hnd2)) as (tail & Htail & _); [done|].
      rewrite <- Heq in Htail. done.
    + destruct (proj2 (parse_cached_params (x1 :: P1) Hnd1)) as (tail & Htail & _); [done|].
      rewrite Heq in Htail. done.
    + destruct (proj2 (parse_cached_params (x1 :: P1) Hnd1)) as (t1 & Ht1 & Hp1); [done|].
      destruct (proj2 (parse_cached_params (x2 :: P2) Hnd2)) as (t2 & Ht2 & Hp2); [done|].
      rewrite Heq, Ht2 in Ht1. injection Ht1 as <-.
      rewrite <- (sorted_by_key_perm (query_of (x1 :: P1))),
              <- (sorted_by_key_perm (query_of (x2 :: P2))).
      by rewrite <- Hp1, <- Hp2.
  - intros Hperm.
    assert (sorted_by_key (query_of P1) = sorted_by_key (query_of P2)) as Hsorted.
    { apply sorted_by_key_unique; [by rewrite query_of_keys|done]. }
    rewrite (proj1 (parse_cached_params P1 Hnd1)), (proj1 (parse_cached_params P2 Hnd2)).
    destruct P1 as [|x1 P1], P2 as [|x2 P2]; [done| | |].
    + by apply Permutation_nil in Hperm.
    + symmetry in Hperm. by apply Permutation_nil in Hperm.
    + by rewrite !urlencode_pairs, !query_of_sorted, Hsorted.
Qed.



(** ** A mapping that is passed again *)

Lemma signed_grows s (t : string) (params : dict) k :
  is_auth_key k = true → assoc_mem k params = false →
  (length params < length (signed s t params))%nat.
Proof.
  intros Hk Hmem.
  rewrite <- (length_fmap fst (signed s t params)), signed_keys, length_app, length_fmap.
  unfold is_auth_key in Hk.
  apply orb_true_iff in Hk as [[Hk|Hk]%orb_true_iff|Hk];
    apply String.eqb_eq in Hk; subst k; simpl; rewrite Hmem; simpl;
    repeat case_match; simpl; lia.
Qed.

(** A call that finds nothing usable in the cache sends the request. *)
Lemma call_miss_requests s endpoint params env st :
  let p := default [] params in
  let K := cache_key s endpoint p in
  let r := _call s endpoint params env st in
  (∀ c, cache s = Some c → truthy c = true →
        has_get c = true ∧ cache_entries st !! K = None) →
  HttpGet (request_url s endpoint) (signed s (clock env (clock_reads st)) p) (headers s)
    ∈ new_events st r.
Proof.
  intros p K r Hmiss.
  destruct (call_shape s endpoint params env st) as (lookups & _ & [Hno|Hreq]).
  - exfalso. fold r p in Hno.
    destruct (call_cases s endpoint params env st)
      as [(_ & _ & _ & _ & c & Hc & Ht & Hg)
         |[(c & V & Hc & Ht & _ & HV & _)
          |(pre & st1 & _ & Hp & _ & Hclock & _ & Hr)]].
    + destruct (Hmiss c Hc Ht) as [Hg' _]. congruence.
    + destruct (Hmiss c Hc Ht) as [_ HV']. fold p K in HV. congruence.
    + fold r in Hr. destruct Hno as (_ & _ & Hclock' & _).
      assert (clock_reads r.2 = S (clock_reads st)) as Hread; [|lia].
      rewrite Hr. cbv zeta.
      destruct (http env _ _ _) as [status_code [data|]|what]; simpl;
        [|by rewrite Hclock..].
      destruct (handle_response_frame s (cache_key s endpoint (default [] params))
                  status_code data env
                  (at_request s (request_url s endpoint) env st1)) as (_ & -> & _).
      simpl. by rewrite Hclock.
  - destruct Hreq as (writes & Hev & _). fold r p in Hev. rewrite Hev.
    apply elem_of_app. right. apply elem_of_app. left. by apply list_elem_of_singleton.
Qed.

(** X12. [_call] signs the caller's mapping in place, so a caller that
    passes the very mapping of a call that went to the network again asks
    under another cache key: the three names are part of it now. Unless
    the cache already held an entry under that key, the second call sends
    the request again, whatever the first one stored. *)
Theorem reused_params_miss s endpoint (P : dict) env1 st env2 url p hdrs k :
  let r1 := _call s endpoint (Some P) env1 st in
  let reused := params_obj r1.2 in
  let r2 := _call s endpoint (Some reused) env2 r1.2 in
  NoDup P.*1 →
  is_auth_key k = true → assoc_mem k P = false →
  HttpGet url p hdrs ∈ new_events st r1 →
  reused = p
  ∧ cache_key s endpoint reused ≠ cache_key s endpoint P
  ∧ (cache_entries st !! cache_key s endpoint reused = None →
     HttpGet url (signed s (clock env2 (clock_reads r1.2)) reused) hdrs
       ∈ new_events r1.2 r2).
Proof.
  intros r1 reused r2 Hnd Hk Hmem Hin.
  destruct (call_shape s endpoint (Some P) env1 st) as (lookups & Hl & [Hno|Hreq]).
  { exfalso. destruct Hno as (Hev & _). fold r1 in Hev. rewrite Hev in Hin.
    destruct Hl as [->| ->]; [by apply elem_of_nil in Hin|].
    by apply list_elem_of_singleton in Hin. }
  destruct Hreq as (writes & Hev & _ & Hp & Hmiss & Hw). fold r1 in Hev, Hp, Hw.
  simpl in Hev, Hp, Hmiss, Hw.
  assert (url = request_url s endpoint ∧ hdrs = headers s
          ∧ p = signed s (clock env1 (clock_reads st)) P) as (-> & -> & ->).
  { rewrite Hev in Hin. apply elem_of_app in Hin as [Hin|Hin].
    - destruct Hl as [->| ->]; [by apply elem_of_nil in Hin|].
      by apply list_elem_of_singleton in Hin.
    - apply elem_of_cons in Hin as [Heq|Hin]; [by simplify_eq|].
      destruct Hw as [[-> _]|(fields & _ & _ & -> & _)];
        [by apply elem_of_nil in Hin|by apply list_elem_of_singleton in Hin]. }
  assert (cache_key s endpoint reused ≠ cache_key s endpoint P) as Hne.
  { unfold reused. rewrite Hp. intros Heq.
    apply (inj (String.app _)) in Heq.
    apply cached_params_eq_iff in Heq; [|by do 3 apply assoc_set_NoDup|done].
    apply Permutation_length in Heq. unfold query_of in Heq. rewrite !length_map in Heq.
    pose proof (signed_grows s (clock env1 (clock_reads st)) P k Hk Hmem). lia. }
  split_and!; [done|done|]. intros Hnone.
  unfold r2. apply (call_miss_requests s endpoint (Some reused) env2 r1.2).
  simpl. intros c Hc Ht.
  assert (cache_entries r1.2 !! cache_key s endpoint reused = None) as Hlook.
  { destruct Hw as [[_ ->]|(fields & _ & _ & _ & ->)]; [done|].
    by rewrite lookup_insert_ne. }
  split; [|done].
  by destruct (call_request_in_use s c endpoint (Some P) env1 st _ _ _ Hc Ht Hin).
Qed.

Lemma reused_params_miss_witness :
  let s := Scenario.session (Some Scenario.sqlite_cache) in
  let world := Scenario.world (Response 200 (Some Scenario.ok_body)) in
  let r1 := _call s [SegStr "comics"] (Some Scenario.page) world Scenario.fresh in
  let r2 := _call s [SegStr "comics"] (Some (params_obj r1.2)) world r1.2 in
  NoDup Scenario.page.*1
  ∧ is_auth_key "hash" = true
  ∧ assoc_mem "hash" Scenario.page = false
  ∧ HttpGet "http://gateway.marvel.com:80/v1/public/comics"
      (signed s Scenario.now Scenario.page) Scenario.user_agent
      ∈ new_events Scenario.fresh r1
  ∧ cache_key s [SegStr "comics"] (params_obj r1.2)
    ≠ cache_key s [SegStr "comics"] Scenario.page
  ∧ HttpGet "http://gateway.marvel.com:80/v1/public/comics"
      (signed s (clock world (clock_reads r1.2)) (params_obj r1.2)) Scenario.user_agent
      ∈ new_events r1.2 r2.
Proof.
  intros s world r1 r2.
  assert (NoDup Scenario.page.*1) as Hnd.
  { apply NoDup_cons. split; [|apply NoDup_singleton].
    intros Hin. apply list_elem_of_singleton in Hin. discriminate Hin. }
  assert (HttpGet "http://gateway.marvel.com:80/v1/public/comics"
            (signed s Scenario.now Scenario.page) Scenario.user_agent
            ∈ new_events Scenario.fresh r1) as Hsent.
  { vm_compute. repeat constructor. }
  pose proof (reused_params_miss s [SegStr "comics"] Scenario.page world Scenario.fresh
                world _ _ _ "hash" Hnd eq_refl eq_refl Hsent) as (_ & Hkey & Hagain).
  split_and!; [exact Hnd|reflexivity|reflexivity|exact Hsent|exact Hkey|].
  apply Hagain. vm_compute. reflexivity.
Defined.

Lemma repeated_call_is_a_hit_witness :
  let s := Scenario.session (Some Scenario.sqlite_cache) in
  let later := {| clock := fun _ => "2024-02-0417:40:02";
                  http := fun _ _ _ => Failure "unreachable" |} in
  let world := Scenario.world (Response 200 (Some Scenario.ok_body)) in
  let r1 := _call s [SegStr "comics"] (Some Scenario.page) world Scenario.fresh in
  let r2 := _call s [SegStr "comics"] (Some (reverse Scenario.page)) later r1.2 in
  NoDup Scenario.page.*1
  ∧ Scenario.page ≡ₚ reverse Scenario.page
  ∧ HttpGet "http://gateway.marvel.com:80/v1/public/comics"
      (signed s Scenario.now Scenario.page) Scenario.user_agent
      ∈ new_events Scenario.fresh r1
  ∧ r1.1 = Return (JArr [Scenario.comic_1])
  ∧ r2.1 = Return (JArr [Scenario.comic_1])
  ∧ new_events r1.2 r2 = [CacheGet (cache_key s [SegStr "comics"] Scenario.page)].
Proof.
  intros s later world r1 r2.
  assert (NoDup Scenario.page.*1) as Hnd.
  { apply NoDup_cons. split; [|apply NoDup_singleton].
    intros Hin. apply list_elem_of_singleton in Hin. discriminate Hin. }
  assert (Scenario.page ≡ₚ reverse Scenario.page) as Hperm by apply Permutation_swap.
  assert (HttpGet "http://gateway.marvel.com:80/v1/public/comics"
            (signed s Scenario.now Scenario.page) Scenario.user_agent
            ∈ new_events Scenario.fresh r1) as Hsent.
  { vm_compute. repeat constructor. }
  assert (r1.1 = Return (JArr [Scenario.comic_1])) as Hres by (vm_compute; reflexivity).
  pose proof (repeated_call_is_a_hit s Scenario.sqlite_cache [SegStr "comics"]
                Scenario.page (reverse Scenario.page) world Scenario.fresh later
                _ _ _ _ (JArr [Scenario.comic_1])
                eq_refl eq_refl eq_refl eq_refl Hnd Hperm Hsent eq_refl Hres) as [H2 Hev].
  split_and!; [exact Hnd|exact Hperm|exact Hsent|exact Hres|exact H2|exact Hev].
Defined.

(** ** A payload that cannot be used *)

(** X14. A payload without [results] is no less cached than a good one:
    when the response has status 200 and passes the classification, the
    payload is stored before [results] is looked up, so the call fails
    with the lookup's exception and the same request made later fails
    with it again, from the cache, without asking the API. *)
Theorem unusable_payload_is_replayed s c endpoint params env st url p hdrs fields env2 :
  let K := cache_key s endpoint (default [] params) in
  let r1 := _call s endpoint params env st in
  let r2 := _call s endpoint params env2 r1.2 in
  cache s = Some c → truthy c = true → has_store c = true →
  HttpGet url p hdrs ∈ new_events st r1 →
  http env url p hdrs = Response 200 (Some (JObj fields)) →
  passes_classification fields = true →
  has_results (unwrapped fields) = false →
  Py.is_None (unwrapped fields) = false →
  (∃ e, r1.1 = Raise e ∧ r2.1 = Raise e
        ∧ (e = KeyError (JStr "results") ∨ e = TypeError))
  ∧ cache_entries r1.2 !! K = Some (unwrapped fields)
  ∧ new_events r1.2 r2 = [CacheGet K].
Proof.
  intros K r1 r2 Hc Ht Hs Hin Hhttp Hpass Hres HN.
  destruct (call_request_in_use s c endpoint params env st url p hdrs Hc Ht Hin)
    as (Hg & st2 & _ & He & Htr & Hr).
  fold K r1 in Htr, Hr. rewrite Hhttp, (handle_response_pass _ _ _ _ _ _ Hpass) in Hr.
  simpl in Hr. rewrite save_run, Hc, Ht, Hs in Hr.
  unfold has_results in Hres.
  destruct (Py.getitem (unwrapped fields) "results") as [?|e] eqn:Hget; [done|].
  assert (cache_entries r1.2 !! K = Some (unwrapped fields)) as Hlook.
  { rewrite Hr. simpl. apply lookup_insert_eq. }
  assert (r2 = (Py.getitem (unwrapped fields) "results",
                log (CacheGet K)
                  {| params_obj := default [] params; cache_entries := cache_entries r1.2;
                     clock_reads := clock_reads r1.2; trace := trace r1.2 |})) as Hr2.
  { unfold r2. by apply (call_hit_run s c endpoint params env2 r1.2 (unwrapped fields)). }
  split_and!; [|done|].
  - exists e. rewrite Hr2, Hr, Hget. split_and!; [done..|].
    destruct (getitem_results_fault _ _ Hget) as [-> | ->]; by auto.
  - apply new_events_app. by rewrite Hr2.
Qed.

Lemma unusable_payload_is_replayed_witness :
  let s := Scenario.session (Some Scenario.sqlite_cache) in
  let world := Scenario.world (Response 200 (Some Scenario.no_results_body)) in
  let down := Scenario.world (Failure "unreachable") in
  let r1 := _call s Scenario.comics_1 None world Scenario.fresh in
  let r2 := _call s Scenario.comics_1 None down r1.2 in
  HttpGet Scenario.comics_1_url Scenario.signed_params Scenario.user_agent
    ∈ new_events Scenario.fresh r1
  ∧ r1.1 = Raise (KeyError (JStr "results"))
  ∧ r2.1 = Raise (KeyError (JStr "results"))
  ∧ new_events r1.2 r2 = [CacheGet Scenario.comics_1_url].
Proof.
  intros s world down r1 r2.
  assert (HttpGet Scenario.comics_1_url Scenario.signed_params Scenario.user_agent
            ∈ new_events Scenario.fresh r1) as Hsent.
  { vm_compute. repeat constructor. }
  pose proof (unusable_payload_is_replayed s Scenario.sqlite_cache Scenario.comics_1 None
                world Scenario.fresh _ _ _ _ down
                eq_refl eq_refl eq_refl Hsent eq_refl eq_refl eq_refl eq_refl)
    as ((e & H1 & H2 & _) & _ & Hev).
  assert (@Raise json e = Raise (KeyError (JStr "results"))) as [= ->].
  { rewrite <- H1. vm_compute. reflexivity. }
  split_and!; [exact Hsent|exact H1|exact H2|exact Hev].
Defined.

(** ** The resource methods *)

(** The exception of a [_call] that raised is one of [call_fault]. *)
Ltac call_fault_of Hcall :=
  match type of Hcall with
  | _call ?s ?E ?p ?env ?st = (Raise ?e, _) =>
      let H := fresh "Hfault" in
      pose proof (call_fault_inv s E p env st e) as H;
      rewrite Hcall in H; specialize (H eq_refl)
  end.

(** X15. A list method adds nothing to its [_call] but the validation of
    what the call returned: the store is the one [_call] leaves, an
    exception of [_call] leaves the method as it is, the returned
    [results] become the records, and a validation fault is raised as
    [ApiError]. The methods that list the [rel] of one [r] call
    [r/id/rel] and validate as [rel]; the methods that list [r] call [r].
    Both pass [_call] a mapping, an empty one when the caller gave none. *)
Theorem list_method_outcome (DomainRecord : Type)
    (validate_python_list : resource → json → list DomainRecord + string)
    (r rel : resource) s _id (params : option dict) env st :
  let validated (target : resource) (c : outcome json * Store) :=
    (match c.1 with
     | Return results =>
         match validate_python_list target results with
         | inl records => Return records
         | inr report => Raise (ApiError (Invalid report))
         end
     | Raise e => Raise e
     end, c.2) in
  let p := Some (default [] params) in
  fetch_related DomainRecord validate_python_list r rel s _id params env st
  = validated rel
      (_call s [SegStr (resource_path r); SegInt _id; SegStr (resource_path rel)] p env st)
  ∧ fetch_all DomainRecord validate_python_list r s params env st
    = validated r (_call s [SegStr (resource_path r)] p env st).
Proof.
  intros validated p. unfold validated, fetch_related, fetch_all, try_except, mbind, M_bind.
  fold p. split.
  - destruct (_call s _ p env st) as [[results|e] st'] eqn:Hcall; simpl.
    + unfold adapter_validate_list. by destruct (validate_python_list rel results).
    + call_fault_of Hcall. by destruct e.
  - destruct (_call s _ p env st) as [[results|e] st'] eqn:Hcall; simpl.
    + unfold adapter_validate_list. by destruct (validate_python_list r results).
    + call_fault_of Hcall. by destruct e.
Qed.

Lemma getitem0_fault data e :
  Py.getitem0 data = Raise e → e = IndexError ∨ e = KeyError (JInt 0) ∨ e = TypeError.
Proof.
  destruct data as [| | | |str|[|x items]|fields]; simpl;
    try destruct (Str.first_char str); intros [= <-]; by auto.
Qed.

(** The methods of the sections above are those of [Raising], with a
    validator that raises nothing but [ValidationError]. *)
Lemma methods_as_raising (DomainRecord : Type)
    (validate_python : resource → json → DomainRecord + string)
    (validate_python_list : resource → json → list DomainRecord + string)
    (r rel : resource) s _id (params : option dict) env st :
  fetch_one DomainRecord validate_python r s _id env st
  = Raising.fetch_one DomainRecord (fun r x => of_report (validate_python r x)) r s _id env st
  ∧ fetch_related DomainRecord validate_python_list r rel s _id params env st
    = Raising.fetch_related DomainRecord (fun r x => of_report (validate_python_list r x))
        r rel s _id params env st
  ∧ fetch_all DomainRecord validate_python_list r s params env st
    = Raising.fetch_all DomainRecord (fun r x => of_report (validate_python_list r x))
        r s params env st.
Proof.
  unfold fetch_one, fetch_related, fetch_all, Raising.fetch_one, Raising.fetch_related,
    Raising.fetch_all, try_except, mbind, M_bind, lift, adapter_validate,
    adapter_validate_list.
  split_and!.
  - destruct (_call s _ None env st) as [[results|e] st']; simpl; [|done].
    destruct (Py.getitem0 results) as [x|e]; simpl; [|done].
    by destruct (validate_python r x).
  - destruct (_call s _ _ env st) as [[results|e] st']; simpl; [|done].
    by destruct (validate_python_list rel results).
  - destruct (_call s _ _ env st) as [[results|e] st']; simpl; [|done].
    by destruct (validate_python_list r results).
Qed.

(** X16. The exceptions that leave a resource method, for a validator
    that may raise anything. A list method raises what [_call] raises, or
    what the validator raised on the results of the call, a
    [ValidationError] having become [ApiError]; a singular fetch raises
    these, the validator being run on element 0, and what indexing the
    results with [0] raises. [ValidationError] leaves none of them. *)
Theorem resource_method_exceptions (DomainRecord : Type)
    (validate_python : resource → json → outcome DomainRecord)
    (validate_python_list : resource → json → outcome (list DomainRecord))
    (r rel : resource) s _id (params : option dict) env st e :
  let from_validator (raised : exn → Prop) :=
    (raised e ∧ ∀ report, e ≠ ValidationError report)
    ∨ ∃ report, raised (ValidationError report) ∧ e = ApiError (Invalid report) in
  let one := _call s [SegStr (resource_path r); SegInt _id] None env st in
  let related :=
    _call s [SegStr (resource_path r); SegInt _id; SegStr (resource_path rel)]
      (Some (default [] params)) env st in
  let all := _call s [SegStr (resource_path r)] (Some (default [] params)) env st in
  ((Raising.fetch_one DomainRecord validate_python r s _id env st).1 = Raise e →
   (∀ report, e ≠ ValidationError report)
   ∧ ((one.1 = Raise e ∧ call_fault e = true)
      ∨ (∃ results, one.1 = Return results ∧ Py.getitem0 results = Raise e
                    ∧ (e = IndexError ∨ e = KeyError (JInt 0) ∨ e = TypeError))
      ∨ ∃ results x, one.1 = Return results ∧ Py.getitem0 results = Return x
                     ∧ from_validator (fun e' => validate_python r x = Raise e')))
  ∧ ((Raising.fetch_related DomainRecord validate_python_list r rel s _id params env st).1
     = Raise e →
     (∀ report, e ≠ ValidationError report)
     ∧ ((related.1 = Raise e ∧ call_fault e = true)
        ∨ ∃ results, related.1 = Return results
                     ∧ from_validator (fun e' => validate_python_list rel results = Raise e')))
  ∧ ((Raising.fetch_all DomainRecord validate_python_list r s params env st).1 = Raise e →
     (∀ report, e ≠ ValidationError report)
     ∧ ((all.1 = Raise e ∧ call_fault e = true)
        ∨ ∃ results, all.1 = Return results
                     ∧ from_validator (fun e' => validate_python_list r results = Raise e'))).
Proof.
  intros from_validator one related all.
  assert (∀ A (v : outcome A) st',
    (match (v, st') with
     | (Raise e0, st'') =>
         match validation_fault_as_ApiError e0 with
         | Some handler => handler env st''
         | None => (Raise e0, st'')
         end
     | done => done
     end).1 = Raise e →
    (∀ report, e ≠ ValidationError report)
    ∧ from_validator (fun e' => v = Raise e')) as Hvalid.
  { intros A [a|e0] st'; simpl; [done|].
    destruct e0; simpl; intros [= <-]; (split; [done|]);
      try (left; by split); right; by eexists. }
  unfold Raising.fetch_one, Raising.fetch_related, Raising.fetch_all, try_except,
    mbind, M_bind, lift.
  subst one related all. cbv zeta.
  split_and!.
  - destruct (_call s _ None env st) as [[results|e'] st'] eqn:Hcall; simpl.
    + destruct (Py.getitem0 results) as [x|e'] eqn:Hget; simpl.
      * intros [Hno Hfrom]%Hvalid. split; [done|]. right; right. by exists results, x.
      * destruct (getitem0_fault _ _ Hget) as [->|[->| ->]]; simpl; intros [= <-];
          (split; [done|]); right; left; exists results; by auto.
    + call_fault_of Hcall. destruct e'; try done; simpl; intros [= <-];
        (split; [done|]); left; by split.
  - destruct (_call s _ _ env st) as [[results|e'] st'] eqn:Hcall; simpl.
    + intros [Hno Hfrom]%Hvalid. split; [done|]. right. by exists results.
    + call_fault_of Hcall. destruct e'; try done; simpl; intros [= <-];
        (split; [done|]); left; by split.
  - destruct (_call s _ _ env st) as [[results|e'] st'] eqn:Hcall; simpl.
    + intros [Hno Hfrom]%Hvalid. split; [done|]. right. by exists results.
    + call_fault_of Hcall. destruct e'; try done; simpl; intros [= <-];
        (split; [done|]); left; by split.
Qed.

Lemma resource_method_exceptions_witness :
  let s := Scenario.session None in
  let ok := Scenario.world (Response 200 (Some Scenario.ok_body)) in
  let not_found := Scenario.world (Response 404 (Some Scenario.not_found_body)) in
  let no_id :=
    Scenario.world
      (Response 200 (Some (JObj [("results", JArr [JObj [("title", JStr "Untitled")]])]))) in
  (Raising.fetch_one json reads_items Story s 1 ok Scenario.fresh).1
  = Raise (KeyError (JStr "items"))
  ∧ (Raising.fetch_related json each_needs_id Comic Character s 1 None
       not_found Scenario.fresh).1
    = Raise (ApiError (Body (JStr "We couldn't find that comic")))
  ∧ (Raising.fetch_all json each_needs_id Comic s (Some Scenario.page)
       no_id Scenario.fresh).1
    = Raise (ApiError (Invalid "id: field required"))
  ∧ (∀ report, KeyError (JStr "items") ≠ ValidationError report)
  ∧ (∀ report, ApiError (Body (JStr "We couldn't find that comic")) ≠ ValidationError report)
  ∧ (∀ report, ApiError (Invalid "id: field required") ≠ ValidationError report).
Proof.
  intros s ok not_found no_id.
  assert ((Raising.fetch_one json reads_items Story s 1 ok Scenario.fresh).1
          = Raise (KeyError (JStr "items"))) as H1 by (vm_compute; reflexivity).
  assert ((Raising.fetch_related json each_needs_id Comic Character s 1 None
             not_found Scenario.fresh).1
          = Raise (ApiError (Body (JStr "We couldn't find that comic")))) as H2
    by (vm_compute; reflexivity).
  assert ((Raising.fetch_all json each_needs_id Comic s (Some Scenario.page)
             no_id Scenario.fresh).1
          = Raise (ApiError (Invalid "id: field required"))) as H3
    by (vm_compute; reflexivity).
  split_and!; [exact H1|exact H2|exact H3| | |].
  - exact (proj1 (proj1 (resource_method_exceptions json reads_items each_needs_id
                           Story Character s 1 None ok Scenario.fresh _) H1)).
  - exact (proj1 (proj1 (proj2 (resource_method_exceptions json reads_items each_needs_id
                                  Comic Character s 1 None not_found Scenario.fresh _))
                    H2)).
  - exact (proj1 (proj2 (proj2 (resource_method_exceptions json reads_items each_needs_id
                                  Comic Character s 1 (Some Scenario.page) no_id
                                  Scenario.fresh _))
                    H3)).
Defined.

(** X17. A singular fetch whose call is a cache hit is served from the
    cache: element 0 of the cached [results] is validated into the record,
    and the lookup is the method's only interaction; no request is sent,
    the clock is not read and the cache contents stay as they were. *)
Theorem singular_fetch_from_cache (DomainRecord : Type)
    (validate_python : resource → json → DomainRecord + string)
    (r : resource) s c _id env st V x rest :
  let K := cache_key s [SegStr (resource_path r); SegInt _id] [] in
  let m := fetch_one DomainRecord validate_python r s _id env st in
  cache s = Some c → truthy c = true → has_get c = true →
  cache_entries st !! K = Some V →
  Py.getitem V "results" = Return (JArr (x :: rest)) →
  m.1 = match validate_python r x with
        | inl record => Return record
        | inr report => Raise (ApiError (Invalid report))
        end
  ∧ new_events st m = [CacheGet K]
  ∧ cache_entries m.2 = cache_entries st
  ∧ clock_reads m.2 = clock_reads st.
Proof.
  intros K m Hc Ht Hg HV Hres.
  assert (Py.is_None V = false) as HN by (by destruct V).
  pose proof (call_hit_run s c [SegStr (resource_path r); SegInt _id] None env st V
                Hc Ht Hg HV HN) as Hcall.
  fold K in Hcall. rewrite Hres in Hcall.
  unfold m, fetch_one, try_except, mbind, M_bind, lift. rewrite Hcall. simpl.
  unfold adapter_validate.
  destruct (validate_python r x); simpl; (split_and!; [done| |done..]);
    apply new_events_app; by simpl.
Qed.

Lemma singular_fetch_from_cache_witness :
  let s := Scenario.session (Some Scenario.sqlite_cache) in
  let m := comic json Scenario.needs_id s 1
             (Scenario.world (Failure "unreachable")) Scenario.warm in
  cache_entries Scenario.warm !! cache_key s [SegStr (resource_path Comic); SegInt 1] []
  = Some Scenario.cached_comics_1
  ∧ m.1 = Return Scenario.comic_1
  ∧ new_events Scenario.warm m = [CacheGet Scenario.comics_1_url].
Proof.
  intros s m.
  assert (cache_entries Scenario.warm
            !! cache_key s [SegStr (resource_path Comic); SegInt 1] []
          = Some Scenario.cached_comics_1) as Hhit by (vm_compute; reflexivity).
  pose proof (singular_fetch_from_cache json Scenario.needs_id Comic s Scenario.sqlite_cache
                1 (Scenario.world (Failure "unreachable")) Scenario.warm
                Scenario.cached_comics_1 Scenario.comic_1 []
                eq_refl eq_refl eq_refl Hhit eq_refl) as (Hm & Hev & _).
  split_and!; [exact Hhit|exact Hm|exact Hev].
Defined.
